(** * The deploy job of [.github/workflows/build-deploy.yaml]

    A shallow embedding of the release workflow: the four shell scripts of
    the [deploy] job (deploy and rollback, for testnet and for mainnet), the
    [jq] lookup they share, and the runner's step scheduling ([if:]
    conditions, job conclusion).

    The scripts run under [bash -e], the runner's default for a [run:] step
    without a [shell:] key: a simple command that exits non-zero outside an
    [if] condition ends the script with that status. *)

From Stdlib Require Import Ascii.
From stdpp Require Import base list strings gmap.

Open Scope string_scope.
Open Scope list_scope.

(** ** The build result and its lookup *)

(** Values of the build-result object: an image tag (a string) or one of
    the sentinels. Numbers and nested values are outside the model, and so
    are strings with blanks or quotes inside, which the unquoted expansions
    of the scripts would split. *)
Inductive json :=
  | JNull
  | JBool (b : bool)
  | JString (s : string).

(** What [jq -r] prints for a value. *)
Definition jq_raw (v : json) : string :=
  match v with
  | JNull => "null"
  | JBool true => "true"
  | JBool false => "false"
  | JString s => s
  end.

(** The text that [${{ needs.build.outputs.matrix-result }}] expands to:
    [Some obj] is the JSON text of the object [obj]; [None] is the empty
    string, which is what an output that the needed job does not declare
    expands to. *)
Definition matrix_result := option (gmap string json).

(** What [$(...)] keeps of the output of a command: all of it but the
    newlines at its end. *)
Fixpoint strip_trailing_newlines (s : string) : string :=
  match s with
  | EmptyString => EmptyString
  | String a rest =>
      match strip_trailing_newlines rest with
      | EmptyString =>
          if Ascii.eqb a "010"%char then EmptyString
          else String a EmptyString
      | String b rest' => String a (String b rest')
      end
  end.

(** [echo '<text>' | jq -r ".[\"$service\"]"], as captured by [$(...)]:
    on empty input jq prints nothing; a key the object lacks gives [null];
    the newlines that end the printed value are dropped by the capture. *)
Definition jq (input : matrix_result) (service : string) : string :=
  match input with
  | None => ""
  | Some obj =>
      match obj !! service with
      | None => "null"
      | Some v => strip_trailing_newlines (jq_raw v)
      end
  end.

(** The [outputs:] of the [build] job. The job has no [outputs:] key; its
    last two steps append a [service=sha] line to [services.json] and upload
    the file as an artifact, which no later step reads. *)
Definition build_outputs : gmap string (gmap string json) := ∅.

Definition needs_build_outputs (name : string) : matrix_result :=
  build_outputs !! name.

(** ** The cluster and the shell *)

Inductive kubectl :=
  | SetContextNamespace (namespace : string)
      (* kubectl config set-context --current --namespace=... *)
  | SetImage (deployment container image : string)
      (* kubectl set image deployment/... container=image *)
  | RolloutStatus (deployment : string) (timeout : N)
      (* kubectl rollout status deployment/... --timeout=...s *)
  | RolloutUndo (deployment : string).
      (* kubectl rollout undo deployment/... *)

(** What a run leaves behind, in order: the lines printed and the kubectl
    commands issued, each with its exit status. *)
Inductive event :=
  | Echo (line : string)
  | Kubectl (c : kubectl) (status : nat).

(** The cluster decides the exit status of a command from what happened
    before it. *)
Definition cluster := list event → kubectl → nat.

Record shell := Shell {
  log : list event;
  failed_deployments : list string;
}.

Inductive outcome (A : Type) :=
  | Next (a : A)
  | Exited (status : nat).
Arguments Next {A} a.
Arguments Exited {A} status.

Definition sh (A : Type) := shell → outcome A * shell.

Global Instance sh_ret : MRet sh := λ A a st, (Next a, st).
Global Instance sh_bind : MBind sh := λ A B f m st,
  match m st with
  | (Next a, st') => f a st'
  | (Exited status, st') => (Exited status, st')
  end.

Definition exit {A} (status : nat) : sh A := λ st, (Exited status, st).

Definition echo (line : string) : sh unit := λ st,
  (Next tt, Shell (log st ++ [Echo line]) (failed_deployments st)).

Definition get_failed : sh (list string) := λ st,
  (Next (failed_deployments st), st).

Definition set_failed (l : list string) : sh unit := λ st,
  (Next tt, Shell (log st) l).

Fixpoint for_each (body : string → sh unit) (items : list string) : sh unit :=
  match items with
  | [] => mret tt
  | item :: rest => body item ;; for_each body rest
  end.

Definition nonempty (s : string) : bool :=
  match s with
  | EmptyString => false
  | String _ _ => true
  end.

(** [[[ -n "$service" && -n "$service_sha" && "$service_sha" != "false"
        && "$service_sha" != "null" ]]] *)
Definition deploy_check (service service_sha : string) : bool :=
  nonempty service && nonempty service_sha
  && negb (service_sha =? "false") && negb (service_sha =? "null").

(** [[[ "$service_sha" != "false" && "$service_sha" != "null" ]]] *)
Definition rollback_check (service_sha : string) : bool :=
  negb (service_sha =? "false") && negb (service_sha =? "null").

Definition image_name (service service_sha : string) : string :=
  "ghcr.io/nearblocks/" +:+ service +:+ ":" +:+ service_sha.

Definition update_line (deployment_name image : string) : string :=
  "Updating deployment for " +:+ deployment_name
  +:+ " with image: " +:+ image.

Definition skip_line (prefix service : string) : string :=
  "Skipping deployment for " +:+ prefix +:+ service
  +:+ " (no updates or invalid SHA)".

Section Scripts.
Variable (k8s : cluster).
Variable (input : matrix_result).

(** A kubectl command in an [if] condition: its status is tested. *)
Definition status_of (c : kubectl) : sh nat := λ st,
  let status := k8s (log st) c in
  (Next status, Shell (log st ++ [Kubectl c status]) (failed_deployments st)).

(** A kubectl command as a statement of its own, under [-e]. *)
Definition run (c : kubectl) : sh unit :=
  status ← status_of c;
  match status with
  | O => mret tt
  | S _ => exit status
  end.

(** Body of the loop of "Deploy and verify testnet" / "... mainnet";
    [prefix] is ["testnet-"] or ["mainnet-"]. *)
Definition deploy_service (prefix service : string) : sh unit :=
  let service_sha := jq input service in
  if deploy_check service service_sha then
    let deployment_name := prefix +:+ service in
    let image := image_name service service_sha in
    echo (update_line deployment_name image) ;;
    run (SetImage deployment_name service image) ;;
    echo ("Verifying rollout for " +:+ deployment_name) ;;
    status ← status_of (RolloutStatus deployment_name 600);
    match status with
    | O => mret tt
    | S _ =>
        echo ("Rollout failed for " +:+ deployment_name) ;;
        failed ← get_failed;
        set_failed (failed ++ [deployment_name])
    end
  else
    echo (skip_line prefix service).

Definition deploy (namespace prefix : string) (services : list string)
  : sh unit :=
  run (SetContextNamespace namespace) ;;
  set_failed [] ;;
  for_each (deploy_service prefix) services ;;
  failed ← get_failed;
  match failed with
  | [] => mret tt
  | _ :: _ =>
      echo "The following deployments failed:" ;;
      for_each echo failed ;;
      exit 1
  end.

(** Body of the loop of "Rollback failed testnet deployments" /
    "... mainnet deployments". *)
Definition rollback_service (prefix service : string) : sh unit :=
  let service_sha := jq input service in
  let deployment_name := prefix +:+ service in
  if rollback_check service_sha then
    echo ("Attempting rollback for " +:+ deployment_name) ;;
    run (RolloutUndo deployment_name)
  else
    mret tt.

Definition rollback (namespace prefix : string) (services : list string)
  : sh unit :=
  run (SetContextNamespace namespace) ;;
  for_each (rollback_service prefix) services.
End Scripts.

Definition testnet_services : list string :=
  ["api"; "app"; "backend"; "indexer-balance"; "indexer-base";
   "indexer-events"; "explorer-selector"; "aggregates"].

Definition mainnet_services : list string :=
  ["api"; "app"; "backend"; "indexer-balance"; "indexer-base";
   "indexer-events"; "indexer-dex"; "indexer-multichain";
   "explorer-selector"; "aggregates"].

Definition deploy_testnet k8s input : sh unit :=
  deploy k8s input "nearblocks-testnet" "testnet-" testnet_services.
Definition rollback_testnet k8s input : sh unit :=
  rollback k8s input "nearblocks-testnet" "testnet-" testnet_services.
Definition deploy_mainnet k8s input : sh unit :=
  deploy k8s input "nearblocks" "mainnet-" mainnet_services.
Definition rollback_mainnet k8s input : sh unit :=
  rollback k8s input "nearblocks" "mainnet-" mainnet_services.

Definition notify : sh unit :=
  echo "Deployment failed. Manual intervention may be required.".

(** Exit status of a script that ran to its end or left through [exit]. *)
Definition exit_status {A} (o : outcome A) : nat :=
  match o with
  | Next _ => 0
  | Exited status => status
  end.

(** A script started as a fresh process after [history]. *)
Definition run_script (script : sh unit) (history : list event)
  : nat * shell :=
  let '(o, st) := script (Shell history []) in (exit_status o, st).

(** ** The job *)

(** [if:] of a step: no key means [success()]. *)
Inductive condition := IfSuccess | IfFailure.

Inductive step_status := Skipped | Succeeded | Failed.

Definition is_failed (s : step_status) : bool :=
  match s with
  | Failed => true
  | Skipped | Succeeded => false
  end.

Record step := Step {
  step_name : string;
  step_if : condition;
  (** [None]: an action or script whose content is not modelled; the
      runner tells whether it succeeds. *)
  step_script : option (sh unit);
}.

Record report := Report {
  rep_step : string;
  rep_status : step_status;
  rep_failed : list string;  (* failed_deployments when the script ended *)
}.

Record job_result := JobResult {
  reports : list report;
  final_log : list event;
}.

Section Job.
(** Which of the steps without a modelled script succeed. *)
Variable (runner : string → bool).

Definition should_run (c : condition) (job_failed : bool) : bool :=
  match c with
  | IfSuccess => negb job_failed
  | IfFailure => job_failed
  end.

Definition run_step (s : step) (history : list event)
  : step_status * shell :=
  match step_script s with
  | None =>
      (if runner (step_name s) then Succeeded else Failed,
       Shell history [])
  | Some script =>
      let '(status, st) := run_script script history in
      (match status with O => Succeeded | S _ => Failed end, st)
  end.

Fixpoint run_steps (steps : list step) (job_failed : bool)
    (history : list event) : job_result :=
  match steps with
  | [] => JobResult [] history
  | s :: rest =>
      if should_run (step_if s) job_failed then
        let '(status, st) := run_step s history in
        let '(JobResult reps final) :=
          run_steps rest (job_failed || is_failed status) (log st) in
        JobResult (Report (step_name s) status (failed_deployments st)
                   :: reps) final
      else
        let '(JobResult reps final) := run_steps rest job_failed history in
        JobResult (Report (step_name s) Skipped [] :: reps) final
  end.
End Job.

Definition deploy_steps (k8s : cluster) (input : matrix_result) : list step :=
  [ Step "Checkout code" IfSuccess None;
    Step "Download Matrix Result Artifact" IfSuccess None;
    Step "Set up kubectl" IfSuccess None;
    Step "Configure kubectl" IfSuccess None;
    Step "Deploy and verify testnet" IfSuccess
         (Some (deploy_testnet k8s input));
    Step "Rollback failed testnet deployments" IfFailure
         (Some (rollback_testnet k8s input));
    Step "Deploy and verify mainnet" IfSuccess
         (Some (deploy_mainnet k8s input));
    Step "Rollback failed mainnet deployments" IfFailure
         (Some (rollback_mainnet k8s input));
    Step "Notify on failure" IfFailure (Some notify) ].

Definition deploy_job (runner : string → bool) (k8s : cluster)
    (input : matrix_result) : job_result :=
  run_steps runner (deploy_steps k8s input) false [].

(** The job as the workflow wires it: the scripts read the [matrix-result]
    output of [build]. *)
Definition workflow_deploy_job (runner : string → bool) (k8s : cluster)
  : job_result :=
  deploy_job runner k8s (needs_build_outputs "matrix-result").

(** The job concludes with success when no step failed. *)
Definition conclusion (r : job_result) : step_status :=
  if existsb (λ x, is_failed (rep_status x)) (reports r)
  then Failed else Succeeded.

Definition report_of (r : job_result) (name : string) : option report :=
  List.find (λ x, rep_step x =? name) (reports r).

(** Status of the step called [name]; a step the job lacks never ran. *)
Definition status_in (r : job_result) (name : string) : step_status :=
  from_option rep_status Skipped (report_of r name).

Definition failed_in (r : job_result) (name : string) : list string :=
  from_option rep_failed [] (report_of r name).

(** ** Reading a log *)

(** The kubectl commands of a log, in order. *)
Definition commands (evs : list event) : list kubectl :=
  omap (λ e, match e with Kubectl c _ => Some c | Echo _ => None end) evs.

(** The deployments whose rollout wait did not converge. *)
Definition timed_out (evs : list event) : list string :=
  omap (λ e, match e with
             | Kubectl (RolloutStatus d _) (S _) => Some d
             | _ => None
             end) evs.

(** The undo calls of a log, each with its exit status. *)
Definition undone (evs : list event) : list (string * nat) :=
  omap (λ e, match e with
             | Kubectl (RolloutUndo d) status => Some (d, status)
             | _ => None
             end) evs.

(** The update and wait calls that [deploy] issues for one service. *)
Definition update_and_wait (input : matrix_result) (prefix service : string)
  : list kubectl :=
  [ SetImage (prefix +:+ service) service
             (image_name service (jq input service));
    RolloutStatus (prefix +:+ service) 600 ].

Definition built (input : matrix_result) (service : string) : bool :=
  deploy_check service (jq input service).

(** The services of a list that the deploy loop updates, and those that the
    rollback loop undoes. *)
Definition built_services (input : matrix_result) (services : list string)
  : list string :=
  filter (λ s, built input s = true) services.

Definition rollback_services (input : matrix_result) (services : list string)
  : list string :=
  filter (λ s, rollback_check (jq input s) = true) services.

(** The deployment that an update, a wait or an undo addresses. *)
Definition deployment_of (c : kubectl) : option string :=
  match c with
  | SetContextNamespace _ => None
  | SetImage d _ _ => Some d
  | RolloutStatus d _ => Some d
  | RolloutUndo d => Some d
  end.

(** The commands of a list that address [deployment], in order. *)
Definition calls_for (deployment : string) (cmds : list kubectl)
  : list kubectl :=
  filter (λ c, deployment_of c = Some deployment) cmds.

(** In a list of calls with their exit status, nothing follows a call that
    failed. *)
Definition stops_at_failure (calls : list (string * nat)) : Prop :=
  ∀ before d status after,
    calls = before ++ (d, status) :: after → status ≠ 0 → after = [].

(** A build-result entry that is absent or a sentinel: no output at all, no
    key for the service, or a value that reads as empty, [false] or
    [null]. *)
Definition absent_or_sentinel (input : matrix_result) (service : string)
  : Prop :=
  match input with
  | None => True
  | Some obj =>
      obj !! service = None ∨ obj !! service = Some JNull
      ∨ obj !! service = Some (JBool false)
      ∨ obj !! service = Some (JString "")
      ∨ obj !! service = Some (JString "false")
      ∨ obj !! service = Some (JString "null")
  end.

(** ** Sample runs *)

Definition all_ok : cluster := λ _ _, 0.

(** The rollout of [testnet-backend] does not converge. *)
Definition backend_times_out : cluster := λ _ c,
  match c with
  | RolloutStatus d _ => if d =? "testnet-backend" then 1 else 0
  | _ => 0
  end.

(** The build result of the spec's scenario. *)
Definition scenario : matrix_result :=
  Some (<["api" := JString "sha1"]>
        (<["app" := JBool false]>
         (<["backend" := JString "sha2"]> ∅))).

Definition steps_ok : string → bool := λ _, true.

(** The job on the scenario's build result when the rollout of
    [testnet-backend] times out. *)
Definition timeout_run : job_result :=
  deploy_job steps_ok backend_times_out scenario.

(** Every update call fails. *)
Definition update_fails : cluster := λ _ c,
  match c with
  | SetImage _ _ _ => 1
  | _ => 0
  end.

(** Every update call on a mainnet deployment fails. *)
Definition mainnet_update_fails : cluster := λ _ c,
  match c with
  | SetImage d _ _ => if String.prefix "mainnet-" d then 1 else 0
  | _ => 0
  end.

(** The job on the scenario's build result when the mainnet updates fail. *)
Definition mainnet_abort_run : job_result :=
  deploy_job steps_ok mainnet_update_fails scenario.

(** The undo of [testnet-api] fails. *)
Definition undo_api_fails : cluster := λ _ c,
  match c with
  | RolloutUndo d => if d =? "testnet-api" then 1 else 0
  | _ => 0
  end.

(** A build result whose entry for [api] is the empty string. *)
Definition empty_api : matrix_result :=
  Some (<["api" := JString ""]> (<["backend" := JString "sha2"]> ∅)).

(** ** The plan of a script *)

(** The kubectl commands of a deploy script that meets no failing update,
    and of a rollback script that meets no failing undo. *)
Definition deploy_plan (input : matrix_result) (namespace prefix : string)
    (services : list string) : list kubectl :=
  SetContextNamespace namespace
  :: flat_map (update_and_wait input prefix) (built_services input services).

Definition rollback_plan (input : matrix_result) (namespace prefix : string)
    (services : list string) : list kubectl :=
  SetContextNamespace namespace
  :: map (λ s, RolloutUndo (prefix +:+ s)) (rollback_services input services).

(** Every kubectl call of a log exited with status 0. *)
Definition all_succeeded (evs : list event) : Prop :=
  ∀ c status, Kubectl c status ∈ evs → status = 0.

(** A deployment of one of the two environments, for a service of its
    list. *)
Definition listed_deployment (d : string) : Prop :=
  (∃ s, s ∈ testnet_services ∧ d = "testnet-" +:+ s)
  ∨ (∃ s, s ∈ mainnet_services ∧ d = "mainnet-" +:+ s).

(** ** Equations of the shell *)

Ltac sh_unfold :=
  unfold run, status_of, echo, exit, get_failed, set_failed;
  unfold mbind, sh_bind, mret, sh_ret; simpl.

Lemma for_each_cons body item rest st :
  for_each body (item :: rest) st =
  match body item st with
  | (Next _, st') => for_each body rest st'
  | (Exited status, st') => (Exited status, st')
  end.
Proof. reflexivity. Qed.

Lemma for_each_app body l1 l2 st :
  for_each body (l1 ++ l2) st =
  match for_each body l1 st with
  | (Next _, st') => for_each body l2 st'
  | (Exited status, st') => (Exited status, st')
  end.
Proof.
  revert st. induction l1 as [|item l1 IH]; intros st; [done|].
  rewrite <- app_comm_cons, !for_each_cons.
  destruct (body item st) as [[[]|status] st']; [apply IH | done].
Qed.

Lemma for_each_echo lines st :
  for_each echo lines st =
  (Next tt, Shell (log st ++ map Echo lines) (failed_deployments st)).
Proof.
  revert st. induction lines as [|l lines IH]; intros [lg fd].
  - simpl. by rewrite app_nil_r.
  - rewrite for_each_cons. unfold echo at 1. rewrite IH. simpl.
    by rewrite <- app_assoc.
Qed.

(** One turn of the deploy loop, case by case. *)
Lemma deploy_service_eq k8s input prefix service st :
  deploy_service k8s input prefix service st =
  let d := prefix +:+ service in
  let image := image_name service (jq input service) in
  if built input service then
    let l1 := log st ++ [Echo (update_line d image)] in
    match k8s l1 (SetImage d service image) with
    | S n =>
        (Exited (S n),
         Shell (l1 ++ [Kubectl (SetImage d service image) (S n)])
               (failed_deployments st))
    | O =>
        let l2 := l1 ++ [Kubectl (SetImage d service image) 0;
                         Echo ("Verifying rollout for " +:+ d)] in
        match k8s l2 (RolloutStatus d 600) with
        | O =>
            (Next tt,
             Shell (l2 ++ [Kubectl (RolloutStatus d 600) 0])
                   (failed_deployments st))
        | S n =>
            (Next tt,
             Shell (l2 ++ [Kubectl (RolloutStatus d 600) (S n);
                           Echo ("Rollout failed for " +:+ d)])
                   (failed_deployments st ++ [d]))
        end
    end
  else
    (Next tt,
     Shell (log st ++ [Echo (skip_line prefix service)])
           (failed_deployments st)).
Proof.
  unfold deploy_service, built.
  destruct (deploy_check service (jq input service)); [|done].
  sh_unfold.
  destruct (k8s _ (SetImage _ _ _)) as [|n] eqn:Himg; simpl; [|done].
  rewrite <- !app_assoc. simpl.
  destruct (k8s _ (RolloutStatus _ _)) as [|m] eqn:Hwait; simpl;
    by rewrite <- ?app_assoc.
Qed.

(** One turn of the rollback loop. *)
Lemma rollback_service_eq k8s input prefix service st :
  rollback_service k8s input prefix service st =
  let d := prefix +:+ service in
  if rollback_check (jq input service) then
    let l1 := log st ++ [Echo ("Attempting rollback for " +:+ d)] in
    let status := k8s l1 (RolloutUndo d) in
    (match status with O => Next tt | S _ => Exited status end,
     Shell (l1 ++ [Kubectl (RolloutUndo d) status]) (failed_deployments st))
  else (Next tt, st).
Proof.
  unfold rollback_service.
  destruct (rollback_check (jq input service)); [|done].
  sh_unfold. by destruct (k8s _ (RolloutUndo _)).
Qed.

(** The script up to its loop. *)
Lemma deploy_eq k8s input namespace prefix services history :
  deploy k8s input namespace prefix services (Shell history []) =
  match k8s history (SetContextNamespace namespace) with
  | S n =>
      (Exited (S n),
       Shell (history ++ [Kubectl (SetContextNamespace namespace) (S n)]) [])
  | O =>
      match for_each (deploy_service k8s input prefix) services
              (Shell (history ++ [Kubectl (SetContextNamespace namespace) 0])
                     [])
      with
      | (Next _, st) =>
          match failed_deployments st with
          | [] => (Next tt, st)
          | _ :: _ =>
              (Exited 1,
               Shell (log st ++ Echo "The following deployments failed:"
                             :: map Echo (failed_deployments st))
                     (failed_deployments st))
          end
      | (Exited status, st) => (Exited status, st)
      end
  end.
Proof.
  unfold deploy. sh_unfold.
  destruct (k8s history _) as [|n]; simpl; [|done].
  destruct (for_each _ services _) as [[[]|status] [lg fd]]; simpl; [|done].
  destruct fd as [|d fd]; [done|].
  rewrite for_each_echo. simpl. by rewrite <- app_assoc.
Qed.

Lemma rollback_eq k8s input namespace prefix services history :
  rollback k8s input namespace prefix services (Shell history []) =
  match k8s history (SetContextNamespace namespace) with
  | S n =>
      (Exited (S n),
       Shell (history ++ [Kubectl (SetContextNamespace namespace) (S n)]) [])
  | O =>
      for_each (rollback_service k8s input prefix) services
        (Shell (history ++ [Kubectl (SetContextNamespace namespace) 0]) [])
  end.
Proof.
  unfold rollback. sh_unfold. by destruct (k8s history _).
Qed.

(** ** The validity checks *)

Lemma absent_or_sentinel_jq input service :
  absent_or_sentinel input service →
  jq input service = "" ∨ jq input service = "false"
  ∨ jq input service = "null".
Proof.
  destruct input as [obj|]; simpl; [|by left].
  intros [H|[H|[H|[H|[H|H]]]]]; rewrite H; simpl; auto.
Qed.

Lemma absent_or_sentinel_not_built input service :
  absent_or_sentinel input service → built input service = false.
Proof.
  intros H. apply absent_or_sentinel_jq in H. unfold built, deploy_check.
  destruct H as [H|[H|H]]; rewrite H; simpl;
    by rewrite ?andb_false_r.
Qed.


(** ** The deploy loop *)

Lemma commands_app l1 l2 : commands (l1 ++ l2) = commands l1 ++ commands l2.
Proof. apply omap_app. Qed.

Lemma timed_out_app l1 l2 : timed_out (l1 ++ l2) = timed_out l1 ++ timed_out l2.
Proof. apply omap_app. Qed.

Lemma undone_app l1 l2 : undone (l1 ++ l2) = undone l1 ++ undone l2.
Proof. apply omap_app. Qed.

Lemma timed_out_echo lines : timed_out (map Echo lines) = [].
Proof. by induction lines. Qed.

Lemma commands_echo lines : commands (map Echo lines) = [].
Proof. by induction lines. Qed.

Ltac shell_eq :=
  rewrite <- ?app_assoc; simpl; apply (f_equal2 pair); [reflexivity|];
  apply (f_equal2 Shell); [reflexivity | simpl; by rewrite ?app_nil_r].

(** One turn of the deploy loop: it only issues the update and the wait of
    a service that passes the check, records the wait when it failed, never
    leaves with status 0, and runs to its end when the update succeeds. *)
Lemma deploy_service_sound k8s input prefix s st :
  ∃ o evs,
    deploy_service k8s input prefix s st =
      (o, Shell (log st ++ evs) (failed_deployments st ++ timed_out evs))
    ∧ (∀ c status, Kubectl c status ∈ evs →
         built input s = true ∧ c ∈ update_and_wait input prefix s)
    ∧ (∀ status, o = Exited status → status ≠ 0)
    ∧ ((∀ h d c i, k8s h (SetImage d c i) = 0) →
         o = Next tt
         ∧ commands evs =
             if built input s then update_and_wait input prefix s else []).
Proof.
  rewrite deploy_service_eq. cbv zeta.
  destruct (built input s) eqn:Hb.
  - destruct (k8s _ (SetImage _ _ _)) as [|n] eqn:Himg.
    + destruct (k8s _ (RolloutStatus _ _)) as [|m] eqn:Hwait.
      * do 2 eexists. split; [shell_eq|]. split_and!; [|done|done].
        intros c status Hin. split; [done|]. unfold update_and_wait.
        rewrite !elem_of_cons in Hin. rewrite !elem_of_cons.
        destruct Hin as [?|[[= -> _]|[?|[[= -> _]|Hin]]]];
          try discriminate; auto.
        by apply elem_of_nil in Hin.
      * do 2 eexists. split; [shell_eq|]. split_and!; [|done|done].
        intros c status Hin. split; [done|]. unfold update_and_wait.
        rewrite !elem_of_cons in Hin. rewrite !elem_of_cons.
        destruct Hin as [?|[[= -> _]|[?|[[= -> _]|[?|Hin]]]]];
          try discriminate; auto.
        by apply elem_of_nil in Hin.
    + do 2 eexists. split; [shell_eq|]. split_and!.
      * intros c status Hin. split; [done|]. unfold update_and_wait.
        rewrite !elem_of_cons in Hin. rewrite !elem_of_cons.
        destruct Hin as [?|[[= -> _]|Hin]]; try discriminate; auto.
        by apply elem_of_nil in Hin.
      * by intros ? [= <-].
      * intros H. by rewrite H in Himg.
  - do 2 eexists. split; [shell_eq|]. split_and!; [|done|done].
    intros c status Hin. rewrite elem_of_cons in Hin.
    destruct Hin as [?|Hin]; [discriminate|]. by apply elem_of_nil in Hin.
Qed.

(** Whatever the cluster answers: the loop only issues the update and the
    wait of services that pass the check, records exactly the waits that
    failed, and never leaves with status 0. *)
Lemma deploy_loop_sound k8s input prefix services st :
  ∃ o new,
    for_each (deploy_service k8s input prefix) services st =
      (o, Shell (log st ++ new) (failed_deployments st ++ timed_out new))
    ∧ (∀ c status, Kubectl c status ∈ new →
         ∃ s, s ∈ services ∧ built input s = true
              ∧ c ∈ update_and_wait input prefix s)
    ∧ (∀ status, o = Exited status → status ≠ 0).
Proof.
  revert st. induction services as [|s services IH]; intros st.
  { exists (Next tt), []. simpl. rewrite !app_nil_r. destruct st.
    split_and!; [done| |done]. intros c status H. by apply elem_of_nil in H. }
  rewrite for_each_cons.
  destruct (deploy_service_sound k8s input prefix s st)
    as (o & evs & -> & Hevs & Hex & _).
  destruct o as [[]|status].
  - destruct (IH (Shell (log st ++ evs)
                        (failed_deployments st ++ timed_out evs)))
      as (o & new & -> & Hnew & Hex').
    exists o, (evs ++ new). simpl.
    rewrite timed_out_app, <- !app_assoc. split_and!; [done| |done].
    intros c status [Hin|Hin]%elem_of_app.
    + destruct (Hevs _ _ Hin). exists s. split_and!; [left|done|done].
    + destruct (Hnew _ _ Hin) as (s' & ? & ? & ?).
      exists s'. split_and!; [by right|done|done].
  - exists (Exited status), evs. split_and!; [done| |done].
    intros c st' Hin. destruct (Hevs _ _ Hin).
    exists s. split_and!; [left|done|done].
Qed.

(** When no update call fails, the loop runs to its end. *)
Lemma deploy_loop_complete k8s input prefix services st :
  (∀ h d c i, k8s h (SetImage d c i) = 0) →
  ∃ new,
    for_each (deploy_service k8s input prefix) services st =
      (Next tt, Shell (log st ++ new) (failed_deployments st ++ timed_out new))
    ∧ commands new =
        flat_map (update_and_wait input prefix)
                 (built_services input services).
Proof.
  intros Himg. revert st.
  induction services as [|s services IH]; intros st.
  { exists []. simpl. rewrite !app_nil_r. by destruct st. }
  rewrite for_each_cons.
  destruct (deploy_service_sound k8s input prefix s st)
    as (o & evs & -> & _ & _ & Hok).
  destruct (Hok Himg) as [-> Hcmd].
  destruct (IH (Shell (log st ++ evs)
                      (failed_deployments st ++ timed_out evs)))
    as (new & -> & Hnew).
  exists (evs ++ new). simpl.
  rewrite timed_out_app, commands_app, <- !app_assoc. split; [done|].
  rewrite Hcmd, Hnew. unfold built_services.
  destruct (built input s) eqn:Hb.
  - by rewrite filter_cons_True by done.
  - by rewrite filter_cons_False by (rewrite Hb; done).
Qed.

Lemma timed_out_script namespace status new lines :
  timed_out (Kubectl (SetContextNamespace namespace) status
             :: new ++ map Echo lines) = timed_out new.
Proof.
  simpl. fold (timed_out (new ++ map Echo lines)).
  by rewrite timed_out_app, timed_out_echo, app_nil_r.
Qed.

Lemma kubectl_not_echoed c status lines : Kubectl c status ∉ map Echo lines.
Proof.
  induction lines as [|l lines IH]; simpl.
  - apply not_elem_of_nil.
  - rewrite not_elem_of_cons. by split.
Qed.

Lemma commands_script namespace status new lines :
  commands (Kubectl (SetContextNamespace namespace) status
            :: new ++ map Echo lines)
  = SetContextNamespace namespace :: commands new.
Proof.
  simpl. fold (commands (new ++ map Echo lines)).
  by rewrite commands_app, commands_echo, app_nil_r.
Qed.

(** The deploy script, whatever the cluster answers. *)
Lemma deploy_sound k8s input namespace prefix services history :
  ∃ o new,
    deploy k8s input namespace prefix services (Shell history []) =
      (o, Shell (history ++ new) (timed_out new))
    ∧ (∀ c status, Kubectl c status ∈ new →
         c = SetContextNamespace namespace
         ∨ ∃ s, s ∈ services ∧ built input s = true
                ∧ c ∈ update_and_wait input prefix s)
    ∧ (o = Next tt → timed_out new = [])
    ∧ (∀ status, o = Exited status → status ≠ 0).
Proof.
  rewrite deploy_eq.
  destruct (k8s history _) as [|n] eqn:Hctx.
  - destruct (deploy_loop_sound k8s input prefix services
                (Shell (history ++ [Kubectl (SetContextNamespace namespace) 0])
                       [])) as (o & new & -> & Hnew & Hex).
    simpl in *. destruct o as [[]|status].
    + destruct (timed_out new) as [|d fd] eqn:Hfd.
      * exists (Next tt), (Kubectl (SetContextNamespace namespace) 0 :: new).
        simpl. rewrite <- !app_assoc, Hfd. simpl.
        split_and!; [done| |done|done].
        intros c status [[= -> _]|Hin]%elem_of_cons; [by left|].
        right. eauto.
      * exists (Exited 1),
          (Kubectl (SetContextNamespace namespace) 0 :: new ++
           map Echo ("The following deployments failed:" :: d :: fd)).
        rewrite timed_out_script, Hfd, <- !app_assoc. simpl.
        split_and!; [done| |done|by intros ? [= <-]].
        intros c status [[= -> _]|Hin]%elem_of_cons; [by left|].
        apply elem_of_app in Hin as [Hin|Hin]; [right; eauto|].
        destruct (kubectl_not_echoed c status (_ :: d :: fd) Hin).
    + exists (Exited status), (Kubectl (SetContextNamespace namespace) 0 :: new).
      simpl. rewrite <- !app_assoc. simpl.
      split_and!; [done| |done|done].
      intros c st [[= -> _]|Hin]%elem_of_cons; [by left|]. right. eauto.
  - exists (Exited (S n)), [Kubectl (SetContextNamespace namespace) (S n)].
    simpl. split_and!; [done| |done|by intros ? [= <-]].
    intros c st [[= -> _]|Hin]%elem_of_cons; [by left|].
    by apply elem_of_nil in Hin.
Qed.

(** The deploy script when neither the namespace selection nor an update
    fails. *)
Lemma deploy_complete k8s input namespace prefix services history :
  (∀ h n, k8s h (SetContextNamespace n) = 0) →
  (∀ h d c i, k8s h (SetImage d c i) = 0) →
  ∃ new,
    deploy k8s input namespace prefix services (Shell history []) =
      (match timed_out new with [] => Next tt | _ :: _ => Exited 1 end,
       Shell (history ++ new) (timed_out new))
    ∧ commands new =
        SetContextNamespace namespace
        :: flat_map (update_and_wait input prefix)
                    (built_services input services).
Proof.
  intros Hctx Himg. rewrite deploy_eq, Hctx.
  destruct (deploy_loop_complete k8s input prefix services
              (Shell (history ++ [Kubectl (SetContextNamespace namespace) 0])
                     []) Himg) as (new & -> & Hcmd).
  simpl. destruct (timed_out new) as [|d fd] eqn:Hfd.
  - exists (Kubectl (SetContextNamespace namespace) 0 :: new ++ map Echo []).
    rewrite timed_out_script, commands_script, Hfd, Hcmd.
    simpl. by rewrite <- !app_assoc, app_nil_r.
  - exists (Kubectl (SetContextNamespace namespace) 0 :: new ++
            map Echo ("The following deployments failed:" :: d :: fd)).
    rewrite timed_out_script, commands_script, Hfd, Hcmd.
    simpl. by rewrite <- !app_assoc.
Qed.

(** ** The calls that address one deployment *)

Lemma calls_for_update_and_wait input prefix s s' :
  calls_for (prefix +:+ s) (update_and_wait input prefix s') =
  if decide (s' = s) then update_and_wait input prefix s' else [].
Proof.
  unfold calls_for, update_and_wait. destruct (decide (s' = s)) as [->|Hne].
  - rewrite !filter_cons_True by done. done.
  - rewrite !filter_cons_False; [done|simpl..];
      by intros [= ?%(inj (String.app prefix))].
Qed.

Lemma calls_for_absent input prefix s l :
  s ∉ l →
  calls_for (prefix +:+ s) (flat_map (update_and_wait input prefix) l) = [].
Proof.
  induction l as [|s' l IH]; [done|].
  intros [Hne Hl]%not_elem_of_cons.
  change (flat_map (update_and_wait input prefix) (s' :: l))
    with (update_and_wait input prefix s'
          ++ flat_map (update_and_wait input prefix) l).
  unfold calls_for in *. rewrite filter_app.
  fold (calls_for (prefix +:+ s) (update_and_wait input prefix s')).
  rewrite calls_for_update_and_wait, IH by done.
  by destruct (decide (s' = s)) as [->|].
Qed.

Lemma calls_for_present input prefix s l :
  NoDup l → s ∈ l →
  calls_for (prefix +:+ s) (flat_map (update_and_wait input prefix) l)
  = update_and_wait input prefix s.
Proof.
  induction l as [|s' l IH]; [by intros _ ?%elem_of_nil|].
  intros [Hs' Hl]%NoDup_cons Hin.
  change (flat_map (update_and_wait input prefix) (s' :: l))
    with (update_and_wait input prefix s'
          ++ flat_map (update_and_wait input prefix) l).
  unfold calls_for in *. rewrite filter_app.
  fold (calls_for (prefix +:+ s) (update_and_wait input prefix s')).
  fold (calls_for (prefix +:+ s)
          (flat_map (update_and_wait input prefix) l)).
  rewrite calls_for_update_and_wait.
  destruct (decide (s' = s)) as [->|Hne].
  - by rewrite calls_for_absent, app_nil_r.
  - apply elem_of_cons in Hin as [->|Hin]; [done|]. by apply IH.
Qed.

(** With no build output every turn of the deploy loop skips. *)
Lemma deploy_loop_no_output k8s prefix services st :
  for_each (deploy_service k8s None prefix) services st =
  (Next tt,
   Shell (log st ++ map (λ s, Echo (skip_line prefix s)) services)
         (failed_deployments st)).
Proof.
  revert st. induction services as [|s services IH]; intros st.
  - simpl. rewrite app_nil_r. by destruct st.
  - rewrite for_each_cons, deploy_service_eq. cbv zeta.
    replace (built None s) with false
      by (unfold built, deploy_check; simpl; by rewrite andb_false_r).
    rewrite IH. simpl. by rewrite <- app_assoc.
Qed.

Lemma deploy_no_output k8s namespace prefix services history :
  deploy k8s None namespace prefix services (Shell history []) =
  match k8s history (SetContextNamespace namespace) with
  | O =>
      (Next tt,
       Shell (history ++ Kubectl (SetContextNamespace namespace) 0
                      :: map (λ s, Echo (skip_line prefix s)) services) [])
  | S n =>
      (Exited (S n),
       Shell (history ++ [Kubectl (SetContextNamespace namespace) (S n)]) [])
  end.
Proof.
  rewrite deploy_eq. destruct (k8s history _); [|done].
  rewrite deploy_loop_no_output. simpl. by rewrite <- app_assoc.
Qed.

(** ** The claims about the scripts *)

(** C2. The build job declares no [matrix-result] output, so the text the
    deploy job reads is empty: the lookup gives the empty string for every
    service, no service passes the check, and both deploy scripts, after
    selecting the namespace, only print one skip line per service. *)
Theorem build_result_is_empty k8s history :
  needs_build_outputs "matrix-result" = None
  ∧ (∀ service, jq (needs_build_outputs "matrix-result") service = "")
  ∧ (∀ service, built (needs_build_outputs "matrix-result") service = false)
  ∧ deploy_testnet k8s (needs_build_outputs "matrix-result")
      (Shell history []) =
    match k8s history (SetContextNamespace "nearblocks-testnet") with
    | O =>
        (Next tt,
         Shell (history ++ Kubectl (SetContextNamespace "nearblocks-testnet") 0
                        :: map (λ s, Echo (skip_line "testnet-" s))
                               testnet_services) [])
    | S n =>
        (Exited (S n),
         Shell (history ++
                [Kubectl (SetContextNamespace "nearblocks-testnet") (S n)]) [])
    end
  ∧ deploy_mainnet k8s (needs_build_outputs "matrix-result")
      (Shell history []) =
    match k8s history (SetContextNamespace "nearblocks") with
    | O =>
        (Next tt,
         Shell (history ++ Kubectl (SetContextNamespace "nearblocks") 0
                        :: map (λ s, Echo (skip_line "mainnet-" s))
                               mainnet_services) [])
    | S n =>
        (Exited (S n),
         Shell (history ++
                [Kubectl (SetContextNamespace "nearblocks") (S n)]) [])
    end.
Proof.
  assert (needs_build_outputs "matrix-result" = None) as E
    by (unfold needs_build_outputs, build_outputs; apply lookup_empty).
  rewrite E. split_and!; [done|done| | |].
  - intros service. unfold built, deploy_check. simpl.
    by rewrite andb_false_r.
  - apply deploy_no_output.
  - apply deploy_no_output.
Qed.

Lemma calls_for_none d cmds :
  (∀ c, c ∈ cmds → deployment_of c ≠ Some d) → calls_for d cmds = [].
Proof.
  unfold calls_for. induction cmds as [|c cmds IH]; intros H; [done|].
  rewrite filter_cons_False by (apply H; left).
  apply IH. intros c' Hc'. apply H. by right.
Qed.

Lemma elem_of_commands c evs :
  c ∈ commands evs ↔ ∃ status, Kubectl c status ∈ evs.
Proof.
  unfold commands. rewrite list_elem_of_omap. split.
  - intros ([line|c' status] & Hin & [= <-]). eauto.
  - intros (status & Hin). by exists (Kubectl c status).
Qed.

Lemma elem_of_timed_out d evs :
  d ∈ timed_out evs → ∃ t n, Kubectl (RolloutStatus d t) (S n) ∈ evs.
Proof.
  unfold timed_out. rewrite list_elem_of_omap.
  intros ([line|[| | |] [|n]] & Hin & [= <-]). eauto.
Qed.

Lemma update_and_wait_deployment input prefix s c :
  c ∈ update_and_wait input prefix s → deployment_of c = Some (prefix +:+ s).
Proof.
  unfold update_and_wait. rewrite !elem_of_cons.
  intros [->|[->|?%elem_of_nil]]; done.
Qed.

(** C8. A service whose build-result entry is absent or a sentinel is
    skipped: its turn of the deploy loop issues no kubectl call, prints
    the skip line, leaves the failed list as it was and goes on to the next
    service; in the whole run of the script no update, wait or any other
    call addresses its deployment, and its deployment is not in the failed
    list. *)
Theorem skipped_service_untouched
    k8s input namespace prefix services service history st :
  absent_or_sentinel input service →
  deploy_service k8s input prefix service st =
    (Next tt,
     Shell (log st ++ [Echo (skip_line prefix service)])
           (failed_deployments st))
  ∧ (∀ rest,
       for_each (deploy_service k8s input prefix) (service :: rest) st =
       for_each (deploy_service k8s input prefix) rest
         (Shell (log st ++ [Echo (skip_line prefix service)])
                (failed_deployments st)))
  ∧ ∃ status st' new,
      run_script (deploy k8s input namespace prefix services) history
        = (status, st')
      ∧ log st' = history ++ new
      ∧ calls_for (prefix +:+ service) (commands new) = []
      ∧ prefix +:+ service ∉ failed_deployments st'.
Proof.
  intros Hb%absent_or_sentinel_not_built.
  assert (deploy_service k8s input prefix service st =
          (Next tt,
           Shell (log st ++ [Echo (skip_line prefix service)])
                 (failed_deployments st))) as Hturn.
  { rewrite deploy_service_eq. cbv zeta. by rewrite Hb. }
  split_and!; [done| |].
  { intros rest. by rewrite for_each_cons, Hturn. }
  destruct (deploy_sound k8s input namespace prefix services history)
    as (o & new & Hrun & Hnew & _ & _).
  exists (exit_status o), (Shell (history ++ new) (timed_out new)), new.
  unfold run_script. rewrite Hrun. split_and!; [done|done| |].
  - apply calls_for_none. intros c [status Hin]%elem_of_commands.
    destruct (Hnew _ _ Hin) as [->|(s & _ & Hs & Hc)]; [done|].
    rewrite (update_and_wait_deployment _ _ _ _ Hc).
    intros [= ->%(inj (String.app prefix))]. congruence.
  - simpl. intros (t & n & Hin)%elem_of_timed_out.
    destruct (Hnew _ _ Hin) as [?|(s & _ & Hs & Hc)]; [done|].
    apply update_and_wait_deployment in Hc. simpl in Hc.
    injection Hc as ->%(inj (String.app prefix)). congruence.
Qed.

Lemma skipped_service_untouched_witness :
  deploy_service backend_times_out scenario "testnet-" "app" (Shell [] []) =
    (Next tt, Shell ([] ++ [Echo (skip_line "testnet-" "app")]) [])
  ∧ (∀ rest,
       for_each (deploy_service backend_times_out scenario "testnet-")
         ("app" :: rest) (Shell [] []) =
       for_each (deploy_service backend_times_out scenario "testnet-") rest
         (Shell ([] ++ [Echo (skip_line "testnet-" "app")]) []))
  ∧ ∃ status st' new,
      run_script (deploy backend_times_out scenario "nearblocks-testnet"
                    "testnet-" testnet_services) [] = (status, st')
      ∧ log st' = [] ++ new
      ∧ calls_for ("testnet-" +:+ "app") (commands new) = []
      ∧ "testnet-" +:+ "app" ∉ failed_deployments st'.
Proof.
  apply (skipped_service_untouched backend_times_out scenario
           "nearblocks-testnet" "testnet-" testnet_services "app" []
           (Shell [] [])).
  unfold absent_or_sentinel, scenario. right. right. left.
  vm_compute. reflexivity.
Defined.

(** C10. The update call is not guarded: when the updates of the services
    before [service] went through and the update of [service] exits with a
    non-zero status, the deploy script ends there with that status; the log
    ends with the failed update, whatever services come after it in the
    list, and the failed list is the one the earlier services left. *)
Theorem update_failure_aborts
    k8s input namespace prefix before service rest history st n :
  k8s history (SetContextNamespace namespace) = 0 →
  for_each (deploy_service k8s input prefix) before
    (Shell (history ++ [Kubectl (SetContextNamespace namespace) 0]) [])
    = (Next tt, st) →
  built input service = true →
  k8s (log st ++ [Echo (update_line (prefix +:+ service)
                          (image_name service (jq input service)))])
      (SetImage (prefix +:+ service) service
                (image_name service (jq input service))) = S n →
  deploy k8s input namespace prefix (before ++ service :: rest)
    (Shell history []) =
  (Exited (S n),
   Shell (log st ++
          [Echo (update_line (prefix +:+ service)
                   (image_name service (jq input service)));
           Kubectl (SetImage (prefix +:+ service) service
                      (image_name service (jq input service))) (S n)])
         (failed_deployments st)).
Proof.
  intros Hctx Hbefore Hb Himg.
  rewrite deploy_eq, Hctx, for_each_app, Hbefore, for_each_cons.
  rewrite deploy_service_eq. cbv zeta. rewrite Hb, Himg.
  by rewrite <- app_assoc.
Qed.

Lemma update_failure_aborts_witness :
  deploy update_fails scenario "nearblocks-testnet" "testnet-"
    ([] ++ "api" :: ["app"; "backend"]) (Shell [] []) =
  (Exited 1,
   Shell ([Kubectl (SetContextNamespace "nearblocks-testnet") 0] ++
          [Echo (update_line ("testnet-" +:+ "api")
                   (image_name "api" (jq scenario "api")));
           Kubectl (SetImage ("testnet-" +:+ "api") "api"
                      (image_name "api" (jq scenario "api"))) 1])
         []).
Proof.
  apply (update_failure_aborts update_fails scenario "nearblocks-testnet"
           "testnet-" [] "api" ["app"; "backend"] []
           (Shell [Kubectl (SetContextNamespace "nearblocks-testnet") 0] [])
           0).
  - reflexivity.
  - reflexivity.
  - vm_compute. reflexivity.
  - reflexivity.
Defined.

(** C6, as the script has it. When the namespace selection and every
    update call succeed, the deploy script issues the update and the wait of
    every service that passes the check, in list order, whatever the waits
    answer; the failed list holds exactly the deployments whose wait failed
    (so it is as long as the number of waits that failed); and the script
    exits non-zero exactly when the failed list is not empty. *)
Theorem timeouts_are_isolated k8s input namespace prefix services history :
  (∀ h ns, k8s h (SetContextNamespace ns) = 0) →
  (∀ h d c i, k8s h (SetImage d c i) = 0) →
  ∃ status st new,
    run_script (deploy k8s input namespace prefix services) history
      = (status, st)
    ∧ log st = history ++ new
    ∧ commands new =
        SetContextNamespace namespace
        :: flat_map (update_and_wait input prefix)
                    (built_services input services)
    ∧ failed_deployments st = timed_out new
    ∧ length (failed_deployments st) = length (timed_out new)
    ∧ (status ≠ 0 ↔ failed_deployments st ≠ []).
Proof.
  intros Hctx Himg.
  destruct (deploy_complete k8s input namespace prefix services history
              Hctx Himg) as (new & Hrun & Hcmd).
  unfold run_script. rewrite Hrun.
  do 3 eexists. split_and!; [done|done|done|done|done|].
  simpl. by destruct (timed_out new).
Qed.

Lemma timeouts_are_isolated_witness :
  ∃ status st new,
    run_script (deploy backend_times_out scenario "nearblocks-testnet"
                  "testnet-" testnet_services) [] = (status, st)
    ∧ log st = [] ++ new
    ∧ commands new =
        SetContextNamespace "nearblocks-testnet"
        :: flat_map (update_and_wait scenario "testnet-")
                    (built_services scenario testnet_services)
    ∧ failed_deployments st = timed_out new
    ∧ length (failed_deployments st) = length (timed_out new)
    ∧ (status ≠ 0 ↔ failed_deployments st ≠ []).
Proof.
  apply (timeouts_are_isolated backend_times_out scenario
           "nearblocks-testnet" "testnet-" testnet_services []).
  - intros h ns. reflexivity.
  - intros h d c i. reflexivity.
Defined.

(** C6 as stated fails: with two services that pass the check and an update
    call that fails, no wait times out, yet only the first service is
    touched and the script reports failure with an empty failed list. *)
Lemma failure_with_empty_failed_list :
  built_services scenario testnet_services = ["api"; "backend"]
  ∧ run_script (deploy_testnet update_fails scenario) [] =
      (1,
       Shell [Kubectl (SetContextNamespace "nearblocks-testnet") 0;
              Echo (update_line "testnet-api" "ghcr.io/nearblocks/api:sha1");
              Kubectl (SetImage "testnet-api" "api"
                         "ghcr.io/nearblocks/api:sha1") 1]
             []).
Proof. vm_compute. done. Qed.

(** C7, as the script has it. When the namespace selection and every
    update call succeed, the calls that address the deployment of a service
    that passes the check are exactly one update followed by one wait with
    the 600 second timeout, whatever the waits of the other services
    answer. *)
Theorem one_update_then_one_wait
    k8s input namespace prefix services service history :
  (∀ h ns, k8s h (SetContextNamespace ns) = 0) →
  (∀ h d c i, k8s h (SetImage d c i) = 0) →
  NoDup services →
  service ∈ services →
  built input service = true →
  ∃ status st new,
    run_script (deploy k8s input namespace prefix services) history
      = (status, st)
    ∧ log st = history ++ new
    ∧ calls_for (prefix +:+ service) (commands new) =
        [ SetImage (prefix +:+ service) service
                   (image_name service (jq input service));
          RolloutStatus (prefix +:+ service) 600 ].
Proof.
  intros Hctx Himg Hnd Hin Hb.
  destruct (deploy_complete k8s input namespace prefix services history
              Hctx Himg) as (new & Hrun & Hcmd).
  unfold run_script. rewrite Hrun.
  do 3 eexists. split_and!; [done|done|].
  rewrite Hcmd. unfold calls_for. rewrite filter_cons_False by done.
  apply calls_for_present.
  - by apply NoDup_filter.
  - by apply list_elem_of_filter.
Qed.

Lemma one_update_then_one_wait_witness :
  ∃ status st new,
    run_script (deploy backend_times_out scenario "nearblocks-testnet"
                  "testnet-" testnet_services) [] = (status, st)
    ∧ log st = [] ++ new
    ∧ calls_for ("testnet-" +:+ "api") (commands new) =
        [ SetImage ("testnet-" +:+ "api") "api"
                   (image_name "api" (jq scenario "api"));
          RolloutStatus ("testnet-" +:+ "api") 600 ].
Proof.
  apply (one_update_then_one_wait backend_times_out scenario
           "nearblocks-testnet" "testnet-" testnet_services "api" []).
  - intros h ns. reflexivity.
  - intros h d c i. reflexivity.
  - refine (bool_decide_unpack _ _). vm_compute. exact I.
  - refine (bool_decide_unpack _ _). vm_compute. exact I.
  - vm_compute. reflexivity.
Defined.

(** C7 as stated fails: [backend] passes the check, and when the update of
    [api] fails no call addresses [testnet-backend]; [api] itself gets its
    update and no wait. *)
Lemma valid_service_without_update :
  built scenario "backend" = true
  ∧ built scenario "api" = true
  ∧ calls_for "testnet-backend"
      (commands (log (run_script (deploy_testnet update_fails scenario) []).2))
    = []
  ∧ calls_for "testnet-api"
      (commands (log (run_script (deploy_testnet update_fails scenario) []).2))
    = [SetImage "testnet-api" "api" "ghcr.io/nearblocks/api:sha1"].
Proof. vm_compute. done. Qed.

(** ** The rollback loop *)

Lemma stops_at_failure_nil : stops_at_failure [].
Proof. intros [|? ?] ? ? ? ?; discriminate. Qed.

Lemma stops_at_failure_singleton call : stops_at_failure [call].
Proof.
  intros [|? [|? ?]] d status after E _; [|discriminate..].
  by injection E.
Qed.

Lemma stops_at_failure_cons d calls :
  stops_at_failure calls → stops_at_failure ((d, 0) :: calls).
Proof.
  intros H [|call before] d' status after E Hne.
  - injection E as _ <- _. done.
  - injection E as _ E. by apply (H before d' status after).
Qed.

(** One turn of the rollback loop: at most one undo, for a service that
    passes the rollback check; the turn goes on to the next service exactly
    when it issued no undo or its undo succeeded. *)
Lemma rollback_service_sound k8s input prefix s st :
  ∃ o evs,
    rollback_service k8s input prefix s st =
      (o, Shell (log st ++ evs) (failed_deployments st))
    ∧ match o with
      | Next _ =>
          undone evs =
            if rollback_check (jq input s) then [(prefix +:+ s, 0)] else []
      | Exited status =>
          status ≠ 0 ∧ rollback_check (jq input s) = true
          ∧ undone evs = [(prefix +:+ s, status)]
      end.
Proof.
  rewrite rollback_service_eq. cbv zeta.
  destruct (rollback_check (jq input s)) eqn:Hc.
  - destruct (k8s _ (RolloutUndo _)) as [|n] eqn:Hundo.
    + do 2 eexists. split; [rewrite <- app_assoc; reflexivity|done].
    + do 2 eexists. split; [rewrite <- app_assoc; reflexivity|done].
  - exists (Next tt), []. rewrite app_nil_r. by destruct st.
Qed.

Lemma rollback_loop_sound k8s input prefix services st :
  ∃ o new,
    for_each (rollback_service k8s input prefix) services st =
      (o, Shell (log st ++ new) (failed_deployments st))
    ∧ (undone new).*1 `prefix_of`
        (String.app prefix <$> rollback_services input services)
    ∧ stops_at_failure (undone new)
    ∧ (o = Next tt →
         (undone new).*1 =
           String.app prefix <$> rollback_services input services)
    ∧ (∀ status, o = Exited status → status ≠ 0).
Proof.
  revert st. induction services as [|s services IH]; intros st.
  { exists (Next tt), []. simpl. rewrite app_nil_r. destruct st.
    split_and!; [done|done|apply stops_at_failure_nil|done|done]. }
  rewrite for_each_cons. unfold rollback_services.
  destruct (rollback_service_sound k8s input prefix s st)
    as ([[]|status] & evs & -> & Hevs).
  - destruct (IH (Shell (log st ++ evs) (failed_deployments st)))
      as (o & new & -> & Hpre & Hstop & Hall & Hex).
    exists o, (evs ++ new). simpl. rewrite undone_app, Hevs, <- app_assoc.
    destruct (rollback_check (jq input s)) eqn:Hc.
    + rewrite filter_cons_True by done. simpl.
      split_and!; [done| | | |done].
      * by apply prefix_cons.
      * by apply stops_at_failure_cons.
      * intros Ho. f_equal. by apply Hall.
    + rewrite filter_cons_False by (rewrite Hc; done). simpl.
      split_and!; done.
  - destruct Hevs as (Hne & Hc & Hevs).
    exists (Exited status), evs. rewrite Hevs.
    rewrite filter_cons_True by done. simpl.
    split_and!; [done| | |done|by intros ? [= <-]].
    + apply prefix_cons, prefix_nil.
    + apply stops_at_failure_singleton.
Qed.

Lemma rollback_sound k8s input namespace prefix services history :
  ∃ o new,
    rollback k8s input namespace prefix services (Shell history []) =
      (o, Shell (history ++ new) [])
    ∧ (undone new).*1 `prefix_of`
        (String.app prefix <$> rollback_services input services)
    ∧ stops_at_failure (undone new)
    ∧ (o = Next tt →
         (undone new).*1 =
           String.app prefix <$> rollback_services input services)
    ∧ (∀ status, o = Exited status → status ≠ 0).
Proof.
  rewrite rollback_eq. destruct (k8s history _) as [|n].
  - destruct (rollback_loop_sound k8s input prefix services
                (Shell (history ++ [Kubectl (SetContextNamespace namespace) 0])
                       [])) as (o & new & -> & H).
    exists o, (Kubectl (SetContextNamespace namespace) 0 :: new).
    simpl. rewrite <- app_assoc. done.
  - exists (Exited (S n)), [Kubectl (SetContextNamespace namespace) (S n)].
    simpl.
    split_and!;
      [done|apply prefix_nil|apply stops_at_failure_nil|done
      |by intros ? [= <-]].
Qed.

(** How a rollback script ends. *)

Lemma all_succeeded_app l1 l2 :
  all_succeeded l1 → all_succeeded l2 → all_succeeded (l1 ++ l2).
Proof. intros H1 H2 c status [?|?]%elem_of_app; eauto. Qed.

Lemma all_succeeded_nil : all_succeeded [].
Proof. by intros c status ?%elem_of_nil. Qed.

Lemma rollback_service_trace k8s input prefix s st :
  ∃ o evs,
    rollback_service k8s input prefix s st =
      (o, Shell (log st ++ evs) (failed_deployments st))
    ∧ commands evs =
        (if rollback_check (jq input s)
         then [RolloutUndo (prefix +:+ s)] else [])
    ∧ match o with
      | Next _ => all_succeeded evs
      | Exited status =>
          status ≠ 0 ∧ rollback_check (jq input s) = true
          ∧ ∃ pre c, evs = pre ++ [Kubectl c status] ∧ all_succeeded pre
      end.
Proof.
  rewrite rollback_service_eq. cbv zeta.
  destruct (rollback_check (jq input s)) eqn:Hc.
  - destruct (k8s _ (RolloutUndo _)) as [|n] eqn:Hundo.
    + do 2 eexists. split; [rewrite <- app_assoc; reflexivity|].
      split; [done|].
      intros c status Hin. simpl in Hin. rewrite !elem_of_cons in Hin.
      destruct Hin as [?|[[= _ ->]|?%elem_of_nil]]; done.
    + do 2 eexists. split; [rewrite <- app_assoc; reflexivity|].
      split_and!; [done|done|done|].
      eexists [_], _. split; [done|].
      intros c status Hin. rewrite !elem_of_cons in Hin.
      destruct Hin as [?|?%elem_of_nil]; done.
  - exists (Next tt), []. rewrite app_nil_r. destruct st.
    split_and!; [done|done|apply all_succeeded_nil].
Qed.

Lemma rollback_loop_trace k8s input prefix services st :
  ∃ o new,
    for_each (rollback_service k8s input prefix) services st =
      (o, Shell (log st ++ new) (failed_deployments st))
    ∧ commands new `prefix_of`
        map (λ s, RolloutUndo (prefix +:+ s))
            (rollback_services input services)
    ∧ match o with
      | Next _ =>
          commands new =
            map (λ s, RolloutUndo (prefix +:+ s))
                (rollback_services input services)
          ∧ all_succeeded new
      | Exited status =>
          status ≠ 0
          ∧ ∃ pre c, new = pre ++ [Kubectl c status] ∧ all_succeeded pre
      end.
Proof.
  revert st. induction services as [|s services IH]; intros st.
  { exists (Next tt), []. simpl. rewrite app_nil_r. destruct st.
    split_and!; [done|done|done|apply all_succeeded_nil]. }
  rewrite for_each_cons.
  assert (rollback_services input (s :: services) =
          (if rollback_check (jq input s) then [s] else [])
          ++ rollback_services input services) as ->.
  { unfold rollback_services.
    destruct (rollback_check (jq input s)) eqn:Hc.
    - by rewrite filter_cons_True.
    - rewrite filter_cons_False; [done|]. by rewrite Hc. }
  rewrite map_app.
  assert (map (λ s0, RolloutUndo (prefix +:+ s0))
            (if rollback_check (jq input s) then [s] else []) =
          (if rollback_check (jq input s)
           then [RolloutUndo (prefix +:+ s)] else []))
    as -> by (by destruct (rollback_check (jq input s))).
  destruct (rollback_service_trace k8s input prefix s st)
    as ([[]|status] & evs & -> & Hcmd & Hevs).
  - destruct (IH (Shell (log st ++ evs) (failed_deployments st)))
      as (o & new & -> & Hpre & Ho).
    exists o, (evs ++ new). simpl.
    rewrite commands_app, <- !app_assoc, Hcmd.
    split_and!; [done|by apply prefix_app|].
    destruct o as [[]|status].
    + destruct Ho as [-> Hall]. split; [done|].
      by apply all_succeeded_app.
    + destruct Ho as (Hne & pre & c & -> & Hall). split; [done|].
      exists (evs ++ pre), c. rewrite <- app_assoc. split; [done|].
      by apply all_succeeded_app.
  - destruct Hevs as (Hne & Hc & Hlast).
    exists (Exited status), evs. rewrite Hcmd, Hc.
    split_and!; [done| |done|done].
    eexists. reflexivity.
Qed.

Lemma rollback_trace k8s input namespace prefix services history :
  ∃ o new,
    rollback k8s input namespace prefix services (Shell history []) =
      (o, Shell (history ++ new) [])
    ∧ commands new `prefix_of` rollback_plan input namespace prefix services
    ∧ match o with
      | Next _ =>
          commands new = rollback_plan input namespace prefix services
          ∧ all_succeeded new
      | Exited status =>
          status ≠ 0
          ∧ ∃ pre c, new = pre ++ [Kubectl c status] ∧ all_succeeded pre
      end.
Proof.
  rewrite rollback_eq. unfold rollback_plan.
  destruct (k8s history _) as [|n].
  - destruct (rollback_loop_trace k8s input prefix services
                (Shell (history ++ [Kubectl (SetContextNamespace namespace) 0])
                       [])) as (o & new & -> & Hpre & Ho).
    exists o, (Kubectl (SetContextNamespace namespace) 0 :: new).
    simpl. rewrite <- app_assoc. fold (commands new).
    split_and!; [done|by apply prefix_cons|].
    assert (all_succeeded [Kubectl (SetContextNamespace namespace) 0])
      as Hctx.
    { intros c status Hin. rewrite elem_of_cons in Hin.
      destruct Hin as [[= _ ->]|?%elem_of_nil]; done. }
    destruct o as [[]|status].
    + destruct Ho as [-> Hall]. split; [done|].
      by apply (all_succeeded_app [_]).
    + destruct Ho as (Hne & pre & c & -> & Hall). split; [done|].
      exists (Kubectl (SetContextNamespace namespace) 0 :: pre), c.
      split; [done|]. by apply (all_succeeded_app [_]).
  - exists (Exited (S n)), [Kubectl (SetContextNamespace namespace) (S n)].
    simpl. split_and!; [done| |done|].
    + eexists. reflexivity.
    + exists [], (SetContextNamespace namespace).
      split; [done|apply all_succeeded_nil].
Qed.

Lemma elem_of_rollback_plan c input namespace prefix services :
  c ∈ rollback_plan input namespace prefix services →
  c = SetContextNamespace namespace
  ∨ ∃ s, s ∈ services ∧ rollback_check (jq input s) = true
         ∧ c = RolloutUndo (prefix +:+ s).
Proof.
  unfold rollback_plan. intros [->|Hc]%elem_of_cons; [by left|]. right.
  apply list_elem_of_In, in_map_iff in Hc as (s & <- & Hs).
  apply list_elem_of_In, list_elem_of_filter in Hs as [? ?]. eauto.
Qed.

(** C5, as the script has it. The rollback script selects the namespace and
    then issues the undo calls in the order of the list, one for each
    service that passes the rollback check, none twice and no other call.
    It goes on as long as its kubectl calls succeed: it exits with status 0
    exactly when every call succeeded, and then every service that passes
    the check had its undo. Otherwise its log ends with the first call that
    failed, the namespace selection or an undo, and the script exits with
    that call's status, so that nothing follows an undo that failed. *)
Theorem rollback_stops_at_failed_undo
    k8s input namespace prefix services history :
  NoDup services →
  ∃ status st new,
    run_script (rollback k8s input namespace prefix services) history
      = (status, st)
    ∧ log st = history ++ new
    ∧ NoDup (undone new).*1
    ∧ (undone new).*1 `prefix_of`
        (String.app prefix <$> rollback_services input services)
    ∧ stops_at_failure (undone new)
    ∧ (status = 0 →
         (undone new).*1 =
           String.app prefix <$> rollback_services input services)
    ∧ commands new `prefix_of` rollback_plan input namespace prefix services
    ∧ (status = 0 ↔ all_succeeded new)
    ∧ (status ≠ 0 →
         ∃ pre c,
           new = pre ++ [Kubectl c status]
           ∧ all_succeeded pre
           ∧ (c = SetContextNamespace namespace
              ∨ ∃ d, c = RolloutUndo d
                     ∧ undone new = undone pre ++ [(d, status)])).
Proof.
  intros Hnd.
  destruct (rollback_sound k8s input namespace prefix services history)
    as (o & new & Hrun & Hpre & Hstop & Hall & Hex).
  destruct (rollback_trace k8s input namespace prefix services history)
    as (o' & new' & Hrun' & Hplan & Ho).
  rewrite Hrun in Hrun'. injection Hrun' as <- <-%app_inv_head.
  unfold run_script. rewrite Hrun.
  do 3 eexists. split_and!; [done|done| |done|done| |done| |]; simpl.
  - destruct Hpre as [k Hk].
    assert (NoDup (String.app prefix <$> rollback_services input services))
      as Hnd'.
    { apply (NoDup_fmap_2 _). by apply NoDup_filter. }
    rewrite Hk in Hnd'. by apply NoDup_app in Hnd' as [? _].
  - destruct o as [[]|status]; simpl; [auto|].
    intros ->. by destruct (Hex 0).
  - destruct o as [[]|status]; simpl.
    + by destruct Ho.
    + destruct Ho as (Hne & pre & c & -> & _). split; [done|].
      intros Hok. apply (Hok c). apply elem_of_app. right. left.
  - destruct o as [[]|status]; simpl; [done|]. intros _.
    destruct Ho as (Hne & pre & c & -> & Hok).
    exists pre, c. split_and!; [done|done|].
    assert (c ∈ rollback_plan input namespace prefix services) as Hc.
    { destruct Hplan as [k ->]. apply elem_of_app. left.
      apply elem_of_commands. exists status. apply elem_of_app. right. left. }
    apply elem_of_rollback_plan in Hc as [->|(s & _ & _ & ->)]; [by left|].
    right. eexists. split; [done|]. by rewrite undone_app.
Qed.

Lemma rollback_stops_at_failed_undo_witness :
  ∃ status st new,
    run_script (rollback undo_api_fails scenario "nearblocks-testnet"
                  "testnet-" testnet_services) [] = (status, st)
    ∧ log st = [] ++ new
    ∧ NoDup (undone new).*1
    ∧ (undone new).*1 `prefix_of`
        (String.app "testnet-" <$> rollback_services scenario testnet_services)
    ∧ stops_at_failure (undone new)
    ∧ (status = 0 →
         (undone new).*1 =
           String.app "testnet-"
             <$> rollback_services scenario testnet_services)
    ∧ commands new `prefix_of`
        rollback_plan scenario "nearblocks-testnet" "testnet-"
          testnet_services
    ∧ (status = 0 ↔ all_succeeded new)
    ∧ (status ≠ 0 →
         ∃ pre c,
           new = pre ++ [Kubectl c status]
           ∧ all_succeeded pre
           ∧ (c = SetContextNamespace "nearblocks-testnet"
              ∨ ∃ d, c = RolloutUndo d
                     ∧ undone new = undone pre ++ [(d, status)])).
Proof.
  apply (rollback_stops_at_failed_undo undo_api_fails scenario
           "nearblocks-testnet" "testnet-" testnet_services []).
  refine (bool_decide_unpack _ _). vm_compute. exact I.
Defined.

(** C5 as stated fails: [api] and [backend] both pass the rollback check,
    and when the undo of [testnet-api] fails the script ends with that
    status without an undo for [testnet-backend]. *)
Lemma failed_undo_blocks_the_rest :
  rollback_services scenario testnet_services = ["api"; "backend"]
  ∧ run_script (rollback_testnet undo_api_fails scenario) [] =
      (1,
       Shell [Kubectl (SetContextNamespace "nearblocks-testnet") 0;
              Echo "Attempting rollback for testnet-api";
              Kubectl (RolloutUndo "testnet-api") 1]
             []).
Proof. vm_compute. done. Qed.

(** C4, at a build result whose entry for [api] is the empty string: the
    deploy script skips [api], the rollback script undoes [testnet-api]. *)
Lemma rollback_undoes_skipped_service :
  built empty_api "api" = false
  ∧ rollback_check (jq empty_api "api") = true
  ∧ commands (log (run_script (deploy_testnet backend_times_out empty_api)
                     []).2) =
      [ SetContextNamespace "nearblocks-testnet";
        SetImage "testnet-backend" "backend" "ghcr.io/nearblocks/backend:sha2";
        RolloutStatus "testnet-backend" 600 ]
  ∧ undone (log (run_script (rollback_testnet backend_times_out empty_api)
                   []).2) =
      [("testnet-api", 0); ("testnet-backend", 0)].
Proof. vm_compute. done. Qed.

(** ** The job *)

Lemma deploy_status_ok k8s input namespace prefix services history status st :
  run_script (deploy k8s input namespace prefix services) history
    = (status, st) →
  status = 0 → failed_deployments st = [].
Proof.
  destruct (deploy_sound k8s input namespace prefix services history)
    as (o & new & Hrun & _ & Hok & Hex).
  unfold run_script. rewrite Hrun. intros [= <- <-] Hs. simpl.
  destruct o as [[]|status]; [auto|]. simpl in Hs. by destruct (Hex status).
Qed.

(** The job with its four scripts taken as given: the reports depend on the
    scripts only through their exit status. *)
Ltac abstract_scripts k8s input :=
  pose proof (λ h s st,
    deploy_status_ok k8s input "nearblocks-testnet" "testnet-"
      testnet_services h s st
    : run_script (deploy_testnet k8s input) h = (s, st) → _) as Htestnet;
  pose proof (λ h s st,
    deploy_status_ok k8s input "nearblocks" "mainnet-"
      mainnet_services h s st
    : run_script (deploy_mainnet k8s input) h = (s, st) → _) as Hmainnet;
  cbv zeta; unfold deploy_job, deploy_steps;
  generalize dependent (deploy_testnet k8s input);
  generalize dependent (deploy_mainnet k8s input);
  generalize (rollback_testnet k8s input);
  generalize (rollback_mainnet k8s input);
  generalize notify;
  intros nt rm rt dm Hmainnet dt Htestnet.

Ltac job_step runner :=
  match goal with
  | |- context [runner ?name] => destruct (runner name)
  | |- context [run_script ?script ?history] =>
      let E := fresh "E" in
      destruct (run_script script history) as [[|?] ?] eqn:E
  end.

Ltac job_simpl :=
  cbn [run_steps run_step should_run step_if step_name step_script
       negb orb is_failed log failed_deployments reports final_log].

(** Case analysis on the run of the job: one case for each way the steps
    that run can end. *)
Ltac job_cases runner :=
  match goal with
  | |- context [run_steps ?a ?b ?c ?d] =>
      let r := fresh "r" in
      let Hr := fresh "Hr" in
      remember (run_steps a b c d) as r eqn:Hr;
      revert Hr; job_simpl; repeat (job_step runner; job_simpl);
      intros ->
  end.

(** C9, as the job has it. The job concludes with success exactly when
    both deploy steps ran and exited with status 0, in which case their
    failed lists are empty; a deploy step that failed makes the job fail
    whatever the rollback step after it does. *)
Theorem job_succeeds_iff_both_deploys_succeed runner k8s input :
  let r := deploy_job runner k8s input in
  (conclusion r = Succeeded ↔
     status_in r "Deploy and verify testnet" = Succeeded
     ∧ status_in r "Deploy and verify mainnet" = Succeeded)
  ∧ (status_in r "Deploy and verify testnet" = Succeeded →
       failed_in r "Deploy and verify testnet" = [])
  ∧ (status_in r "Deploy and verify mainnet" = Succeeded →
       failed_in r "Deploy and verify mainnet" = [])
  ∧ (status_in r "Deploy and verify testnet" = Failed →
       conclusion r = Failed)
  ∧ (status_in r "Deploy and verify mainnet" = Failed →
       conclusion r = Failed).
Proof.
  abstract_scripts k8s input.
  job_cases runner;
    repeat match goal with
      | H : run_script dt _ = (0, _) |- _ => apply Htestnet in H; [|done]
      | H : run_script dm _ = (0, _) |- _ => apply Hmainnet in H; [|done]
      end;
    vm_compute; split_and!; try done; try (by intros []);
    try (split; [done|by intros []]).
Qed.

Lemma job_succeeds_iff_both_deploys_succeed_witness :
  conclusion (deploy_job steps_ok all_ok scenario) = Succeeded.
Proof.
  apply (job_succeeds_iff_both_deploys_succeed steps_ok all_ok scenario).
  vm_compute. split; reflexivity.
Defined.

(** C9 as stated fails: when the update of [mainnet-api] fails, both deploy
    steps ran and both ended with an empty failed list, the mainnet one at
    its first update, yet the mainnet deploy step failed and so did the
    job. *)
Lemma empty_failed_lists_yet_job_failed :
  status_in mainnet_abort_run "Deploy and verify testnet" = Succeeded
  ∧ failed_in mainnet_abort_run "Deploy and verify testnet" = []
  ∧ status_in mainnet_abort_run "Deploy and verify mainnet" = Failed
  ∧ failed_in mainnet_abort_run "Deploy and verify mainnet" = []
  ∧ timed_out (final_log mainnet_abort_run) = []
  ∧ conclusion mainnet_abort_run = Failed.
Proof. vm_compute. done. Qed.

(** C1, as the job has it. The mainnet deploy step has no [if:], so it runs
    exactly when the testnet deploy step succeeded; after a testnet failure
    the testnet rollback step runs and the mainnet deploy step is skipped,
    whatever the rollback does. *)
Theorem mainnet_deploy_needs_testnet_success runner k8s input :
  let r := deploy_job runner k8s input in
  (status_in r "Deploy and verify mainnet" ≠ Skipped ↔
     status_in r "Deploy and verify testnet" = Succeeded)
  ∧ (status_in r "Deploy and verify testnet" = Failed →
       status_in r "Rollback failed testnet deployments" ≠ Skipped
       ∧ status_in r "Deploy and verify mainnet" = Skipped).
Proof.
  abstract_scripts k8s input.
  job_cases runner; vm_compute; split_and!; try done;
    try (split; [done|by intros []]); try (split; [by intros []|done]);
    intros _; by split.
Qed.

Lemma mainnet_deploy_needs_testnet_success_witness :
  status_in (deploy_job steps_ok all_ok scenario) "Deploy and verify mainnet"
  ≠ Skipped.
Proof.
  apply (mainnet_deploy_needs_testnet_success steps_ok all_ok scenario).
  vm_compute. reflexivity.
Defined.

(** C1 as stated fails: when the rollout of [testnet-backend] times out,
    the testnet deploy step fails, its rollback runs, and the mainnet deploy
    step is skipped: no update or wait addresses a mainnet deployment. *)
Lemma mainnet_deploy_skipped_after_testnet_failure :
  status_in timeout_run "Deploy and verify testnet" = Failed
  ∧ status_in timeout_run "Rollback failed testnet deployments" = Succeeded
  ∧ status_in timeout_run "Deploy and verify mainnet" = Skipped
  ∧ built scenario "api" = true
  ∧ calls_for "mainnet-api" (commands (final_log timeout_run)) =
      [RolloutUndo "mainnet-api"].
Proof. vm_compute. done. Qed.

(** C3, at a run where the rollout of [testnet-backend] times out: the
    mainnet deploy step is skipped, and the mainnet rollback step, whose
    [if: failure()] holds as soon as any earlier step failed, runs and
    undoes the mainnet deployments. *)
Lemma mainnet_rollback_without_mainnet_deploy :
  status_in timeout_run "Deploy and verify testnet" = Failed
  ∧ status_in timeout_run "Deploy and verify mainnet" = Skipped
  ∧ status_in timeout_run "Rollback failed mainnet deployments" = Succeeded
  ∧ undone (final_log timeout_run) =
      [("testnet-api", 0); ("testnet-backend", 0);
       ("mainnet-api", 0); ("mainnet-backend", 0)].
Proof. vm_compute. done. Qed.

(** ** Sample runs, evaluated *)

(** The spec's scenario on testnet: [app] is skipped, [api] and [backend]
    are updated and waited on, and the timed-out [backend] is the failed
    list; the rollback then undoes [api] and [backend], not [app]. *)
Example scenario_deploy :
  run_script (deploy_testnet backend_times_out scenario) [] =
  (1,
   Shell
     ([ Kubectl (SetContextNamespace "nearblocks-testnet") 0;
        Echo (update_line "testnet-api" "ghcr.io/nearblocks/api:sha1");
        Kubectl (SetImage "testnet-api" "api" "ghcr.io/nearblocks/api:sha1") 0;
        Echo "Verifying rollout for testnet-api";
        Kubectl (RolloutStatus "testnet-api" 600) 0;
        Echo (skip_line "testnet-" "app");
        Echo (update_line "testnet-backend"
                "ghcr.io/nearblocks/backend:sha2");
        Kubectl (SetImage "testnet-backend" "backend"
                   "ghcr.io/nearblocks/backend:sha2") 0;
        Echo "Verifying rollout for testnet-backend";
        Kubectl (RolloutStatus "testnet-backend" 600) 1;
        Echo "Rollout failed for testnet-backend" ]
      ++ map (λ s, Echo (skip_line "testnet-" s))
           ["indexer-balance"; "indexer-base"; "indexer-events";
            "explorer-selector"; "aggregates"]
      ++ [ Echo "The following deployments failed:";
           Echo "testnet-backend" ])
     ["testnet-backend"]).
Proof. vm_compute. reflexivity. Qed.

Example scenario_rollback :
  undone (log (run_script (rollback_testnet backend_times_out scenario) []).2)
  = [("testnet-api", 0); ("testnet-backend", 0)].
Proof. vm_compute. reflexivity. Qed.

Example scenario_statuses :
  map (λ x, (rep_step x, rep_status x)) (reports timeout_run) =
  [ ("Checkout code", Succeeded);
    ("Download Matrix Result Artifact", Succeeded);
    ("Set up kubectl", Succeeded);
    ("Configure kubectl", Succeeded);
    ("Deploy and verify testnet", Failed);
    ("Rollback failed testnet deployments", Succeeded);
    ("Deploy and verify mainnet", Skipped);
    ("Rollback failed mainnet deployments", Succeeded);
    ("Notify on failure", Succeeded) ]
  ∧ conclusion timeout_run = Failed.
Proof. vm_compute. done. Qed.

(** The job as the workflow wires it, on a healthy cluster: nothing but the
    two namespace selections reaches the cluster, and the job succeeds. *)
Example workflow_run_deploys_nothing :
  commands (final_log (workflow_deploy_job steps_ok all_ok)) =
    [ SetContextNamespace "nearblocks-testnet";
      SetContextNamespace "nearblocks" ]
  ∧ conclusion (workflow_deploy_job steps_ok all_ok) = Succeeded.
Proof. vm_compute. done. Qed.

(** * Further properties of the scripts *)

(** ** How a deploy script ends *)

Lemma timed_out_intro d t n evs :
  Kubectl (RolloutStatus d t) (S n) ∈ evs → d ∈ timed_out evs.
Proof.
  intros Hin. unfold timed_out. apply list_elem_of_omap.
  by exists (Kubectl (RolloutStatus d t) (S n)).
Qed.

Lemma prefix_of_singleton_cons {A} (x y : A) l k :
  [x] `prefix_of` x :: y :: l ++ k.
Proof. by exists (y :: l ++ k). Qed.

(** One turn of the deploy loop, by the way it ends. *)
Lemma deploy_service_trace k8s input prefix s st :
  ∃ o evs,
    deploy_service k8s input prefix s st =
      (o, Shell (log st ++ evs) (failed_deployments st ++ timed_out evs))
    ∧ match o with
      | Next _ =>
          commands evs =
            (if built input s then update_and_wait input prefix s else [])
          ∧ ∀ c status, Kubectl c status ∈ evs → status ≠ 0 →
              ∃ d t, c = RolloutStatus d t
      | Exited status =>
          status ≠ 0 ∧ built input s = true
          ∧ commands evs =
              [SetImage (prefix +:+ s) s (image_name s (jq input s))]
          ∧ ∃ pre c, evs = pre ++ [Kubectl c status]
      end.
Proof.
  rewrite deploy_service_eq. cbv zeta.
  destruct (built input s) eqn:Hb.
  - destruct (k8s _ (SetImage _ _ _)) as [|n] eqn:Himg.
    + destruct (k8s _ (RolloutStatus _ _)) as [|m] eqn:Hwait.
      * do 2 eexists. split; [shell_eq|]. split; [done|].
        intros c status Hin Hne. rewrite !elem_of_cons in Hin.
        destruct Hin as [?|[[= -> ->]|[?|[[= -> ->]|Hin]]]];
          try discriminate; try done.
        by apply elem_of_nil in Hin.
      * do 2 eexists. split; [shell_eq|]. split; [done|].
        intros c status Hin Hne. rewrite !elem_of_cons in Hin.
        destruct Hin as [?|[[= -> ->]|[?|[[= -> ->]|[?|Hin]]]]];
          try discriminate; try done; [eauto|].
        by apply elem_of_nil in Hin.
    + do 2 eexists. split; [shell_eq|]. split_and!; [done|done|done|].
      by eexists [_], _.
  - do 2 eexists. split; [shell_eq|]. split; [done|].
    intros c status Hin. rewrite elem_of_cons in Hin.
    destruct Hin as [?|Hin]; [discriminate|]. by apply elem_of_nil in Hin.
Qed.

Lemma deploy_loop_trace k8s input prefix services st :
  ∃ o new,
    for_each (deploy_service k8s input prefix) services st =
      (o, Shell (log st ++ new) (failed_deployments st ++ timed_out new))
    ∧ commands new `prefix_of`
        flat_map (update_and_wait input prefix)
                 (built_services input services)
    ∧ match o with
      | Next _ =>
          commands new =
            flat_map (update_and_wait input prefix)
                     (built_services input services)
          ∧ ∀ c status, Kubectl c status ∈ new → status ≠ 0 →
              ∃ d t, c = RolloutStatus d t
      | Exited status =>
          status ≠ 0 ∧ ∃ pre c, new = pre ++ [Kubectl c status]
      end.
Proof.
  revert st. induction services as [|s services IH]; intros st.
  { exists (Next tt), []. simpl. rewrite !app_nil_r. destruct st.
    split_and!; [done|done|done|]. by intros c status ?%elem_of_nil. }
  rewrite for_each_cons. unfold built_services.
  destruct (deploy_service_trace k8s input prefix s st)
    as ([[]|status] & evs & -> & Hevs).
  - destruct Hevs as [Hcmd Hst].
    destruct (IH (Shell (log st ++ evs)
                        (failed_deployments st ++ timed_out evs)))
      as (o & new & -> & Hpre & Ho).
    exists o, (evs ++ new). simpl.
    rewrite timed_out_app, commands_app, <- !app_assoc, Hcmd.
    assert (filter (λ s0, built input s0 = true) (s :: services) =
            (if built input s then [s] else [])
            ++ built_services input services) as ->.
    { unfold built_services. destruct (built input s) eqn:Hb.
      - by rewrite filter_cons_True.
      - rewrite filter_cons_False; [done|]. by rewrite Hb. }
    rewrite flat_map_app.
    assert (flat_map (update_and_wait input prefix)
              (if built input s then [s] else []) =
            (if built input s then update_and_wait input prefix s else []))
      as -> by (destruct (built input s); simpl; by rewrite ?app_nil_r).
    split_and!; [done|by apply prefix_app|].
    destruct o as [[]|status].
    + destruct Ho as [-> Hst']. split; [done|].
      intros c status [Hin|Hin]%elem_of_app; eauto.
    + destruct Ho as (Hne & pre & c & ->). split; [done|].
      exists (evs ++ pre), c. by rewrite <- app_assoc.
  - destruct Hevs as (Hne & Hb & Hcmd & Hlast).
    exists (Exited status), evs. rewrite Hcmd.
    rewrite filter_cons_True by done. simpl.
    split_and!; [done| |done|done].
    eexists (_ :: _). reflexivity.
Qed.

(** The deploy script, by the way it ends: at its end with nothing failed,
    at a kubectl call that failed, or at its end with the list of failed
    rollouts printed. *)
Lemma deploy_trace k8s input namespace prefix services history :
  ∃ o new,
    deploy k8s input namespace prefix services (Shell history []) =
      (o, Shell (history ++ new) (timed_out new))
    ∧ commands new `prefix_of` deploy_plan input namespace prefix services
    ∧ match o with
      | Next _ =>
          commands new = deploy_plan input namespace prefix services
          ∧ all_succeeded new
      | Exited status =>
          status ≠ 0
          ∧ ((∃ pre c, new = pre ++ [Kubectl c status])
             ∨ (status = 1 ∧ timed_out new ≠ []
                ∧ commands new = deploy_plan input namespace prefix services
                ∧ ∃ pre,
                    new = pre ++ Echo "The following deployments failed:"
                              :: map Echo (timed_out new)))
      end.
Proof.
  rewrite deploy_eq. unfold deploy_plan.
  destruct (k8s history _) as [|n] eqn:Hctx.
  - destruct (deploy_loop_trace k8s input prefix services
                (Shell (history ++ [Kubectl (SetContextNamespace namespace) 0])
                       [])) as (o & new & -> & Hpre & Ho).
    simpl in *. destruct o as [[]|status].
    + destruct Ho as [Hcmd Hst].
      destruct (timed_out new) as [|d fd] eqn:Hfd.
      * exists (Next tt), (Kubectl (SetContextNamespace namespace) 0 :: new).
        simpl. rewrite <- !app_assoc, Hfd. simpl.
        fold (commands new). rewrite Hcmd.
        split_and!; [done|done|done|].
        intros c status [[= _ <-]|Hin]%elem_of_cons; [done|].
        destruct status as [|m]; [done|].
        destruct (Hst _ _ Hin) as (d & t & ->); [done|].
        apply timed_out_intro in Hin. rewrite Hfd in Hin.
        by apply elem_of_nil in Hin.
      * exists (Exited 1),
          (Kubectl (SetContextNamespace namespace) 0 :: new ++
           map Echo ("The following deployments failed:" :: d :: fd)).
        rewrite timed_out_script, commands_script, Hfd, Hcmd, <- !app_assoc.
        simpl. split_and!; [done|done|done|].
        right. split_and!; [done|done|done|].
        by exists (Kubectl (SetContextNamespace namespace) 0 :: new).
    + destruct Ho as (Hne & pre & c & ->).
      exists (Exited status),
        (Kubectl (SetContextNamespace namespace) 0
         :: pre ++ [Kubectl c status]).
      simpl. rewrite <- !app_assoc. simpl.
      fold (timed_out (pre ++ [Kubectl c status])).
      fold (commands (pre ++ [Kubectl c status])).
      split_and!; [done|by apply prefix_cons|done|].
      left. by exists (Kubectl (SetContextNamespace namespace) 0 :: pre), c.
  - exists (Exited (S n)), [Kubectl (SetContextNamespace namespace) (S n)].
    simpl. split_and!; [done| |done|].
    + eexists. reflexivity.
    + left. by exists [], (SetContextNamespace namespace).
Qed.

(** X1. Whatever the cluster answers, the kubectl calls of a deploy script
    are an initial part of its plan: the namespace selection, then update
    and wait for each service that passes the check, in list order; when the
    script exits with status 0 the whole plan was carried out. *)
Theorem deploy_follows_plan k8s input namespace prefix services history :
  ∃ status st new,
    run_script (deploy k8s input namespace prefix services) history
      = (status, st)
    ∧ log st = history ++ new
    ∧ commands new `prefix_of` deploy_plan input namespace prefix services
    ∧ (status = 0 →
         commands new = deploy_plan input namespace prefix services).
Proof.
  destruct (deploy_trace k8s input namespace prefix services history)
    as (o & new & Hrun & Hpre & Ho).
  unfold run_script. rewrite Hrun.
  do 3 eexists. split_and!; [done|done|done|].
  destruct o as [[]|status]; simpl; [by destruct Ho|].
  intros ->. by destruct Ho.
Qed.

(** X2. Whatever the cluster answers, the failed list of a deploy script
    holds exactly the deployments whose wait exited non-zero, and each of
    them is the deployment of a service of the list that passes the
    check. *)
Theorem failed_list_is_the_failed_waits
    k8s input namespace prefix services history :
  ∃ status st new,
    run_script (deploy k8s input namespace prefix services) history
      = (status, st)
    ∧ log st = history ++ new
    ∧ (∀ d, d ∈ failed_deployments st ↔
            ∃ n, Kubectl (RolloutStatus d 600) (S n) ∈ new)
    ∧ (∀ d, d ∈ failed_deployments st →
            ∃ s, s ∈ services ∧ built input s = true ∧ d = prefix +:+ s).
Proof.
  destruct (deploy_sound k8s input namespace prefix services history)
    as (o & new & Hrun & Hnew & _ & _).
  unfold run_script. rewrite Hrun.
  do 3 eexists. split_and!; [done|done| |]; simpl.
  - intros d. split.
    + intros (t & n & Hin)%elem_of_timed_out. exists n.
      destruct (Hnew _ _ Hin) as [?|(s & _ & _ & Hc)]; [done|].
      unfold update_and_wait in Hc. rewrite !elem_of_cons in Hc.
      destruct Hc as [?|[[= _ ->]|?%elem_of_nil]]; done.
    + intros [n Hin]. by apply timed_out_intro in Hin.
  - intros d (t & n & Hin)%elem_of_timed_out.
    destruct (Hnew _ _ Hin) as [?|(s & Hs & Hb & Hc)]; [done|].
    exists s. split_and!; [done|done|].
    apply update_and_wait_deployment in Hc. by injection Hc.
Qed.

(** X3. A deploy script exits with status 0 exactly when every kubectl
    call it made exited with status 0. When it exits non-zero, either its
    log ends with a kubectl call that failed and the status is that call's,
    or the status is 1, the failed list is not empty and the log ends with
    the heading and the failed deployments, one per line. *)
Theorem deploy_exit_status k8s input namespace prefix services history :
  ∃ status st new,
    run_script (deploy k8s input namespace prefix services) history
      = (status, st)
    ∧ log st = history ++ new
    ∧ (status = 0 ↔ all_succeeded new)
    ∧ (status ≠ 0 →
         (∃ pre c, new = pre ++ [Kubectl c status])
         ∨ (status = 1 ∧ failed_deployments st ≠ []
            ∧ ∃ pre,
                new = pre ++ Echo "The following deployments failed:"
                          :: map Echo (failed_deployments st))).
Proof.
  destruct (deploy_trace k8s input namespace prefix services history)
    as (o & new & Hrun & _ & Ho).
  unfold run_script. rewrite Hrun.
  do 3 eexists. split_and!; [done|done| |]; simpl.
  - destruct o as [[]|status]; simpl.
    + by destruct Ho.
    + destruct Ho as [Hne Ho]. split; [done|]. intros Hall.
      destruct Ho as [(pre & c & ->)|(_ & Hfd & _)].
      * apply (Hall c). apply elem_of_app. right. left.
      * destruct (timed_out new) as [|d fd] eqn:E; [done|].
        assert (d ∈ timed_out new) as (t & n & Hin)%elem_of_timed_out
          by (rewrite E; left).
        by apply Hall in Hin.
  - destruct o as [[]|status]; simpl; [done|].
    intros _. destruct Ho as [_ [?|(-> & ? & _ & ?)]]; [by left|].
    right. done.
Qed.

(** ** How a rollback script ends *)

(** X4. Whatever the cluster answers, the kubectl calls of a rollback
    script are an initial part of its plan: the namespace selection, then
    one undo for each service that passes the rollback check, in list
    order, and no update or wait; when the script exits with status 0 the
    whole plan was carried out. *)
Theorem rollback_follows_plan k8s input namespace prefix services history :
  ∃ status st new,
    run_script (rollback k8s input namespace prefix services) history
      = (status, st)
    ∧ log st = history ++ new
    ∧ commands new `prefix_of` rollback_plan input namespace prefix services
    ∧ (status = 0 →
         commands new = rollback_plan input namespace prefix services).
Proof.
  destruct (rollback_trace k8s input namespace prefix services history)
    as (o & new & Hrun & Hpre & Ho).
  unfold run_script. rewrite Hrun.
  do 3 eexists. split_and!; [done|done|done|].
  destruct o as [[]|status]; simpl; [by destruct Ho|].
  intros ->. by destruct Ho.
Qed.

(** X5. A rollback script exits with status 0 exactly when every kubectl
    call it made exited with status 0. When it exits non-zero, its log ends
    with the first kubectl call that failed, and the status is that
    call's. *)
Theorem rollback_exit_status k8s input namespace prefix services history :
  ∃ status st new,
    run_script (rollback k8s input namespace prefix services) history
      = (status, st)
    ∧ log st = history ++ new
    ∧ (status = 0 ↔ all_succeeded new)
    ∧ (status ≠ 0 →
         ∃ pre c, new = pre ++ [Kubectl c status] ∧ all_succeeded pre).
Proof.
  destruct (rollback_trace k8s input namespace prefix services history)
    as (o & new & Hrun & _ & Ho).
  unfold run_script. rewrite Hrun.
  do 3 eexists. split_and!; [done|done| |]; simpl.
  - destruct o as [[]|status]; simpl.
    + by destruct Ho.
    + destruct Ho as (Hne & pre & c & -> & _). split; [done|].
      intros Hall. apply (Hall c). apply elem_of_app. right. left.
  - destruct o as [[]|status]; simpl; [done|].
    intros _. by destruct Ho.
Qed.

(** ** Which entries are deployed, which are undone *)

Lemma eqb_false_iff (s1 s2 : string) : (s1 =? s2) = false ↔ s1 ≠ s2.
Proof. apply String.eqb_neq. Qed.

Lemma deploy_check_true service sha :
  deploy_check service sha = true ↔
  service ≠ "" ∧ sha ≠ "" ∧ sha ≠ "false" ∧ sha ≠ "null".
Proof.
  unfold deploy_check.
  rewrite !andb_true_iff, !negb_true_iff, !eqb_false_iff.
  assert (∀ s, nonempty s = true ↔ s ≠ "") as Hne by (by intros []).
  rewrite !Hne. tauto.
Qed.

Lemma rollback_check_true sha :
  rollback_check sha = true ↔ sha ≠ "false" ∧ sha ≠ "null".
Proof.
  unfold rollback_check.
  by rewrite !andb_true_iff, !negb_true_iff, !eqb_false_iff.
Qed.

(** X7. Whatever text the lookup captured, for a service with a non-empty
    name: a text that passes the deploy check passes the rollback check, and
    a text passes the rollback check without passing the deploy check
    exactly when it is empty. *)
Theorem rollback_check_is_weaker service sha :
  service ≠ "" →
  (deploy_check service sha = true → rollback_check sha = true)
  ∧ (rollback_check sha = true ∧ deploy_check service sha = false
     ↔ sha = "").
Proof.
  intros Hs. split.
  - rewrite deploy_check_true, rollback_check_true. tauto.
  - rewrite rollback_check_true.
    rewrite <- not_true_iff_false, deploy_check_true. split.
    + intros [[Hf Hn] Hd].
      destruct (decide (sha = "")) as [|Hne]; [done|].
      destruct Hd. done.
    + intros ->. split; [done|]. by intros (_ & ? & _).
Qed.

Lemma rollback_check_is_weaker_witness :
  (deploy_check "api" "" = true → rollback_check "" = true)
  ∧ (rollback_check "" = true ∧ deploy_check "api" "" = false ↔ "" = "").
Proof.
  apply (rollback_check_is_weaker "api" ""). discriminate.
Defined.

Lemma elem_of_deploy_plan_undo input namespace prefix services s :
  s ∈ services → rollback_check (jq input s) = true →
  RolloutUndo (prefix +:+ s)
  ∈ rollback_plan input namespace prefix services.
Proof.
  intros Hs Hc. unfold rollback_plan. right.
  apply list_elem_of_In, in_map_iff. exists s. split; [done|].
  apply list_elem_of_In, list_elem_of_filter. done.
Qed.

(** X8. Every deployment that a deploy script updated is in the plan of
    the rollback script for the same build result and list, with the image
    and the container of its service. *)
Theorem rollback_plan_covers_updates
    k8s input namespace prefix services history :
  ∃ status st new,
    run_script (deploy k8s input namespace prefix services) history
      = (status, st)
    ∧ log st = history ++ new
    ∧ ∀ d c i status', Kubectl (SetImage d c i) status' ∈ new →
        c ∈ services ∧ d = prefix +:+ c
        ∧ i = image_name c (jq input c)
        ∧ RolloutUndo d ∈ rollback_plan input namespace prefix services.
Proof.
  destruct (deploy_sound k8s input namespace prefix services history)
    as (o & new & Hrun & Hnew & _ & _).
  unfold run_script. rewrite Hrun.
  do 3 eexists. split_and!; [done|done|]. simpl.
  intros d c i status' Hin.
  destruct (Hnew _ _ Hin) as [?|(s & Hs & Hb & Hc)]; [done|].
  unfold update_and_wait in Hc. rewrite !elem_of_cons in Hc.
  destruct Hc as [[= -> -> ->]|[?|?%elem_of_nil]]; try done.
  split_and!; [done|done|done|].
  apply elem_of_deploy_plan_undo; [done|].
  apply rollback_check_true.
  unfold built in Hb. apply deploy_check_true in Hb. tauto.
Qed.

(** ** Further properties of the job *)

(** What every script of a job only appends, the job only appends. *)
Lemma run_steps_forall runner (Q : event → Prop) steps :
  Forall (λ s, ∀ script, step_script s = Some script →
               ∀ h, ∃ new, log (run_script script h).2 = h ++ new
                           ∧ Forall Q new) steps →
  ∀ job_failed h,
    ∃ new, final_log (run_steps runner steps job_failed h) = h ++ new
           ∧ Forall Q new.
Proof.
  induction 1 as [|s steps Hs _ IH]; intros job_failed h.
  { exists []. simpl. by rewrite app_nil_r. }
  simpl. destruct (should_run (step_if s) job_failed).
  - assert (∃ new, log (run_step runner s h).2 = h ++ new ∧ Forall Q new)
      as (new1 & Hlog & Hnew1).
    { unfold run_step. destruct (step_script s) as [script|] eqn:E.
      - destruct (Hs script eq_refl h) as (new & Hlog & Hnew).
        destruct (run_script script h) as [status st]. eauto.
      - exists []. simpl. by rewrite app_nil_r. }
    destruct (run_step runner s h) as [status st]. simpl in Hlog.
    destruct (IH (job_failed || is_failed status) (log st))
      as (new2 & Hfinal & Hnew2).
    destruct (run_steps runner steps _ (log st)) as [reps final].
    simpl in *. exists (new1 ++ new2).
    rewrite Hfinal, Hlog, <- app_assoc. split; [done|].
    by apply Forall_app.
  - destruct (IH job_failed h) as (new & Hfinal & Hnew).
    destruct (run_steps runner steps job_failed h) as [reps final].
    simpl in *. eauto.
Qed.

Lemma notify_eq h :
  run_script notify h =
  (0, Shell (h ++ [Echo "Deployment failed. Manual intervention may be required."]) []).
Proof. reflexivity. Qed.

(** The job with its deploy and rollback scripts taken as given. *)
Ltac abstract_deploys k8s input :=
  cbv zeta; unfold deploy_job, deploy_steps;
  pose proof notify_eq as Hnotify;
  generalize dependent notify;
  generalize (deploy_testnet k8s input) (deploy_mainnet k8s input)
    (rollback_testnet k8s input) (rollback_mainnet k8s input);
  intros dt dm rt rm nt Hnotify.

(** X10. The step "Notify on failure" runs exactly when the job fails, and
    is skipped exactly when the job succeeds; it cannot fail, and when the
    job fails its line is the last of the log. *)
Theorem notify_iff_job_failed runner k8s input :
  let r := deploy_job runner k8s input in
  (status_in r "Notify on failure" = Succeeded ↔ conclusion r = Failed)
  ∧ (status_in r "Notify on failure" = Skipped ↔ conclusion r = Succeeded)
  ∧ (conclusion r = Failed →
       ∃ pre, final_log r =
         pre ++ [Echo "Deployment failed. Manual intervention may be required."]).
Proof.
  abstract_deploys k8s input.
  job_cases runner;
    repeat match goal with
      | E : run_script nt _ = _ |- _ => rewrite Hnotify in E; simplify_eq
      end;
    cbn [final_log reports log]; split_and!;
    try (vm_compute; done); try (vm_compute; split; done); eauto.
Qed.

(** X11. A rollback step runs exactly when the deploy step of its
    environment did not succeed, be it that the deploy step failed or that
    it was skipped because an earlier step had failed. *)
Theorem rollback_iff_deploy_not_succeeded runner k8s input :
  let r := deploy_job runner k8s input in
  (status_in r "Rollback failed testnet deployments" ≠ Skipped ↔
     status_in r "Deploy and verify testnet" ≠ Succeeded)
  ∧ (status_in r "Rollback failed mainnet deployments" ≠ Skipped ↔
       status_in r "Deploy and verify mainnet" ≠ Succeeded).
Proof.
  abstract_deploys k8s input.
  job_cases runner; vm_compute; split_and!; try done;
    split; try done; by intros [].
Qed.

Lemma deploy_success k8s input namespace prefix services h st :
  run_script (deploy k8s input namespace prefix services) h = (0, st) →
  ∃ new, log st = h ++ new
         ∧ commands new = deploy_plan input namespace prefix services
         ∧ all_succeeded new.
Proof.
  destruct (deploy_trace k8s input namespace prefix services h)
    as (o & new & Hrun & _ & Ho).
  unfold run_script. rewrite Hrun. intros [= Hs <-]. exists new.
  destruct o as [[]|status]; simpl in *; [by destruct Ho|].
  subst. by destruct Ho.
Qed.

(** X12. A job that concludes with success carried out the whole testnet
    plan and then the whole mainnet plan, and nothing else: its kubectl
    calls are the two plans in that order, with no undo, and every call
    exited with status 0. *)
Theorem successful_job_runs_both_plans runner k8s input :
  conclusion (deploy_job runner k8s input) = Succeeded →
  commands (final_log (deploy_job runner k8s input)) =
    deploy_plan input "nearblocks-testnet" "testnet-" testnet_services
    ++ deploy_plan input "nearblocks" "mainnet-" mainnet_services
  ∧ all_succeeded (final_log (deploy_job runner k8s input)).
Proof.
  pose proof (λ h st,
    deploy_success k8s input "nearblocks-testnet" "testnet-"
      testnet_services h st
    : run_script (deploy_testnet k8s input) h = (0, st) → _) as Ht.
  pose proof (λ h st,
    deploy_success k8s input "nearblocks" "mainnet-" mainnet_services h st
    : run_script (deploy_mainnet k8s input) h = (0, st) → _) as Hm.
  unfold deploy_job, deploy_steps.
  generalize dependent (deploy_testnet k8s input).
  generalize dependent (deploy_mainnet k8s input).
  generalize (rollback_testnet k8s input) (rollback_mainnet k8s input) notify.
  intros rt rm nt dm Hm dt Ht.
  job_cases runner; intros Hc; try (by vm_compute in Hc).
  apply Ht in E as (new1 & Hl1 & Hc1 & Ha1).
  apply Hm in E0 as (new2 & Hl2 & Hc2 & Ha2).
  cbn [final_log]. rewrite Hl2, Hl1. simpl.
  rewrite commands_app, Hc1, Hc2. split; [done|].
  by apply all_succeeded_app.
Qed.

Lemma successful_job_runs_both_plans_witness :
  commands (final_log (deploy_job steps_ok all_ok scenario)) =
    deploy_plan scenario "nearblocks-testnet" "testnet-" testnet_services
    ++ deploy_plan scenario "nearblocks" "mainnet-" mainnet_services
  ∧ all_succeeded (final_log (deploy_job steps_ok all_ok scenario)).
Proof.
  apply (successful_job_runs_both_plans steps_ok all_ok scenario).
  vm_compute. reflexivity.
Defined.

Lemma deploy_addresses k8s input namespace prefix services h :
  ∃ new,
    log (run_script (deploy k8s input namespace prefix services) h).2
      = h ++ new
    ∧ Forall (λ e, ∀ c status d, e = Kubectl c status →
                   deployment_of c = Some d →
                   ∃ s, s ∈ services ∧ d = prefix +:+ s) new.
Proof.
  destruct (deploy_sound k8s input namespace prefix services h)
    as (o & new & Hrun & Hnew & _ & _).
  unfold run_script. rewrite Hrun. exists new. split; [done|].
  apply Forall_forall. intros e He c status d -> Hd.
  destruct (Hnew _ _ He) as [->|(s & Hs & _ & Hc)]; [done|].
  apply update_and_wait_deployment in Hc. exists s. split; [done|].
  congruence.
Qed.

Lemma rollback_addresses k8s input namespace prefix services h :
  ∃ new,
    log (run_script (rollback k8s input namespace prefix services) h).2
      = h ++ new
    ∧ Forall (λ e, ∀ c status, e = Kubectl c status →
                   c = SetContextNamespace namespace
                   ∨ ∃ s, s ∈ services ∧ c = RolloutUndo (prefix +:+ s)) new.
Proof.
  destruct (rollback_trace k8s input namespace prefix services h)
    as (o & new & Hrun & [k Hk] & _).
  unfold run_script. rewrite Hrun. exists new. split; [done|].
  apply Forall_forall. intros e He c status ->.
  assert (c ∈ rollback_plan input namespace prefix services) as Hc.
  { rewrite Hk. apply elem_of_app. left. apply elem_of_commands. eauto. }
  unfold rollback_plan in Hc. apply elem_of_cons in Hc as [->|Hc]; [by left|].
  apply list_elem_of_In, in_map_iff in Hc as (s & <- & Hs).
  apply list_elem_of_In, list_elem_of_filter in Hs as [_ Hs]. eauto.
Qed.

Lemma notify_appends h :
  ∃ new, log (run_script notify h).2 = h ++ new
         ∧ Forall (λ e, ∀ c status, e ≠ Kubectl c status) new.
Proof.
  rewrite notify_eq. eexists. split; [done|].
  by apply Forall_singleton.
Qed.

(** X13. Whatever the runner, the cluster and the build result, every call
    of the job that addresses a deployment addresses the testnet deployment
    of a service of the testnet list or the mainnet deployment of a service
    of the mainnet list. *)
Theorem job_addresses_listed_deployments runner k8s input c d :
  c ∈ commands (final_log (deploy_job runner k8s input)) →
  deployment_of c = Some d →
  listed_deployment d.
Proof.
  intros [status Hc]%elem_of_commands Hd.
  cut (Forall (λ s, ∀ script, step_script s = Some script →
                 ∀ h, ∃ new, log (run_script script h).2 = h ++ new
                   ∧ Forall (λ e, ∀ c status d, e = Kubectl c status →
                       deployment_of c = Some d → listed_deployment d) new)
         (deploy_steps k8s input)).
  { intros HF.
    destruct (run_steps_forall runner _ _ HF false [])
      as (new & Hlog & Hnew).
    unfold deploy_job in Hc. rewrite Hlog in Hc. simpl in Hc.
    rewrite Forall_forall in Hnew. eauto. }
  - unfold deploy_steps. repeat apply Forall_cons_2; try apply Forall_nil_2;
      intros script Hs h; simplify_eq/=.
    + destruct (deploy_addresses k8s input "nearblocks-testnet" "testnet-"
                  testnet_services h) as (new & Hlog & Hnew).
      exists new. split; [done|]. eapply Forall_impl; [exact Hnew|].
      intros e He c' status' d' -> Hd'. left. eauto.
    + destruct (rollback_addresses k8s input "nearblocks-testnet" "testnet-"
                  testnet_services h) as (new & Hlog & Hnew).
      exists new. split; [done|]. eapply Forall_impl; [exact Hnew|].
      intros e He c' status' d' -> Hd'.
      destruct (He _ _ eq_refl) as [->|(s & Hs & ->)]; [done|].
      injection Hd' as <-. left. eauto.
    + destruct (deploy_addresses k8s input "nearblocks" "mainnet-"
                  mainnet_services h) as (new & Hlog & Hnew).
      exists new. split; [done|]. eapply Forall_impl; [exact Hnew|].
      intros e He c' status' d' -> Hd'. right. eauto.
    + destruct (rollback_addresses k8s input "nearblocks" "mainnet-"
                  mainnet_services h) as (new & Hlog & Hnew).
      exists new. split; [done|]. eapply Forall_impl; [exact Hnew|].
      intros e He c' status' d' -> Hd'.
      destruct (He _ _ eq_refl) as [->|(s & Hs & ->)]; [done|].
      injection Hd' as <-. right. eauto.
    + destruct (notify_appends h) as (new & Hlog & Hnew).
      exists new. split; [done|]. eapply Forall_impl; [exact Hnew|].
      intros e He c' status' d' ->. by destruct (He c' status').
Qed.

Lemma job_addresses_listed_deployments_witness :
  listed_deployment "mainnet-api".
Proof.
  apply (job_addresses_listed_deployments steps_ok backend_times_out scenario
           (RolloutUndo "mainnet-api") "mainnet-api").
  - apply (list_elem_of_lookup_2 _ 9). vm_compute. reflexivity.
  - reflexivity.
Defined.

(** X14. The job as the workflow wires it, reading the undeclared
    [matrix-result] output, never updates a deployment and never waits for
    a rollout, whatever the runner and the cluster do: its only kubectl
    calls are namespace selections and undo calls. *)
Theorem workflow_never_updates runner k8s c :
  c ∈ commands (final_log (workflow_deploy_job runner k8s)) →
  (∃ namespace, c = SetContextNamespace namespace)
  ∨ (∃ d, c = RolloutUndo d).
Proof.
  intros [status Hc]%elem_of_commands.
  unfold workflow_deploy_job in Hc.
  replace (needs_build_outputs "matrix-result") with (@None (gmap string json))
    in Hc by (symmetry; apply lookup_empty).
  cut (Forall (λ s, ∀ script, step_script s = Some script →
                 ∀ h, ∃ new, log (run_script script h).2 = h ++ new
                   ∧ Forall (λ e, ∀ c status, e = Kubectl c status →
                       (∃ namespace, c = SetContextNamespace namespace)
                       ∨ (∃ d, c = RolloutUndo d)) new)
         (deploy_steps k8s None)).
  { intros HF.
    destruct (run_steps_forall runner _ _ HF false [])
      as (new & Hlog & Hnew).
    unfold deploy_job in Hc. rewrite Hlog in Hc. simpl in Hc.
    rewrite Forall_forall in Hnew. eauto. }
  - assert (∀ namespace prefix services h,
              ∃ new,
                log (run_script (deploy k8s None namespace prefix services)
                       h).2 = h ++ new
                ∧ Forall (λ e, ∀ c status, e = Kubectl c status →
                    (∃ namespace, c = SetContextNamespace namespace)
                    ∨ (∃ d, c = RolloutUndo d)) new) as Hdeploy.
    { intros namespace prefix services h. unfold run_script.
      rewrite deploy_no_output. destruct (k8s h _) as [|n]; simpl.
      - eexists. split; [done|]. apply Forall_cons. split.
        + intros c' status' [= <- _]. left. eauto.
        + apply Forall_forall. intros e He c' status' ->.
          rewrite <- (map_map (skip_line prefix) Echo) in He.
          by apply kubectl_not_echoed in He.
      - eexists. split; [done|]. apply Forall_singleton.
        intros c' status' [= <- _]. left. eauto. }
    assert (∀ namespace prefix services h,
              ∃ new,
                log (run_script (rollback k8s None namespace prefix services)
                       h).2 = h ++ new
                ∧ Forall (λ e, ∀ c status, e = Kubectl c status →
                    (∃ namespace, c = SetContextNamespace namespace)
                    ∨ (∃ d, c = RolloutUndo d)) new) as Hrollback.
    { intros namespace prefix services h.
      destruct (rollback_addresses k8s None namespace prefix services h)
        as (new & Hlog & Hnew).
      exists new. split; [done|]. eapply Forall_impl; [exact Hnew|].
      intros e He c' status' ->.
      destruct (He _ _ eq_refl) as [->|(s & _ & ->)]; eauto. }
    unfold deploy_steps. repeat apply Forall_cons_2; try apply Forall_nil_2;
      intros script Hs h; simplify_eq/=;
      [apply Hdeploy|apply Hrollback|apply Hdeploy|apply Hrollback|].
    destruct (notify_appends h) as (new & Hlog & Hnew).
    exists new. split; [done|]. eapply Forall_impl; [exact Hnew|].
    intros e He c' status' ->. by destruct (He c' status').
Qed.

Lemma workflow_never_updates_witness :
  (∃ namespace, RolloutUndo "testnet-api" = SetContextNamespace namespace)
  ∨ (∃ d, RolloutUndo "testnet-api" = RolloutUndo d).
Proof.
  apply (workflow_never_updates (λ s, negb (s =? "Checkout code")) all_ok
           (RolloutUndo "testnet-api")).
  apply (list_elem_of_lookup_2 _ 1). vm_compute. reflexivity.
Defined.

Lemma deploy_testnet_updates k8s input h :
  ∃ new,
    log (run_script (deploy_testnet k8s input) h).2 = h ++ new
    ∧ Forall (λ e, ∀ d c i status, e = Kubectl (SetImage d c i) status →
                   ∃ s, s ∈ testnet_services ∧ d = "testnet-" +:+ s) new.
Proof.
  destruct (deploy_addresses k8s input "nearblocks-testnet" "testnet-"
              testnet_services h) as (new & Hlog & Hnew).
  exists new. split; [done|]. eapply Forall_impl; [exact Hnew|].
  intros e He d c i status ->. by apply (He _ _ d eq_refl).
Qed.

Lemma rollback_no_update k8s input namespace prefix services h :
  ∃ new,
    log (run_script (rollback k8s input namespace prefix services) h).2
      = h ++ new
    ∧ Forall (λ e, ∀ d c i status, e = Kubectl (SetImage d c i) status →
                   ∃ s, s ∈ testnet_services ∧ d = "testnet-" +:+ s) new.
Proof.
  destruct (rollback_addresses k8s input namespace prefix services h)
    as (new & Hlog & Hnew).
  exists new. split; [done|]. eapply Forall_impl; [exact Hnew|].
  intros e He d c i status ->.
  by destruct (He _ _ eq_refl) as [?|(s & _ & ?)].
Qed.

Lemma notify_no_update h :
  ∃ new,
    log (run_script notify h).2 = h ++ new
    ∧ Forall (λ e, ∀ d c i status, e = Kubectl (SetImage d c i) status →
                   ∃ s, s ∈ testnet_services ∧ d = "testnet-" +:+ s) new.
Proof.
  destruct (notify_appends h) as (new & Hlog & Hnew).
  exists new. split; [done|]. eapply Forall_impl; [exact Hnew|].
  intros e He d c i status ->. by destruct (He (SetImage d c i) status).
Qed.

(** X15. Unless the testnet deploy step succeeded, the job updates no
    mainnet deployment: every update call of its log is for the testnet
    deployment of a service of the testnet list. *)
Theorem no_mainnet_update_unless_testnet_succeeded
    runner k8s input d c i status :
  status_in (deploy_job runner k8s input) "Deploy and verify testnet"
    ≠ Succeeded →
  Kubectl (SetImage d c i) status ∈ final_log (deploy_job runner k8s input) →
  ∃ s, s ∈ testnet_services ∧ d = "testnet-" +:+ s.
Proof.
  pose proof (deploy_testnet_updates k8s input) as Hdt.
  pose proof (rollback_no_update k8s input "nearblocks-testnet" "testnet-"
                testnet_services) as Hrt.
  pose proof (rollback_no_update k8s input "nearblocks" "mainnet-"
                mainnet_services) as Hrm.
  pose proof notify_no_update as Hnt.
  fold (rollback_testnet k8s input) in Hrt.
  fold (rollback_mainnet k8s input) in Hrm.
  unfold deploy_job, deploy_steps.
  generalize dependent notify.
  generalize dependent (rollback_mainnet k8s input).
  generalize dependent (rollback_testnet k8s input).
  generalize dependent (deploy_testnet k8s input).
  generalize (deploy_mainnet k8s input).
  intros dm dt Hdt rt Hrt rm Hrm nt Hnt.
  job_cases runner; intros Hs; try (by destruct Hs);
    cbn [final_log];
    repeat match goal with
      | E : run_script ?x ?h = (_, ?st) |- _ =>
          let new := fresh "new" in
          let Hl := fresh "Hl" in
          let Hq := fresh "Hq" in
          first [ destruct (Hdt h) as (new & Hl & Hq); rewrite E in Hl
                | destruct (Hrt h) as (new & Hl & Hq); rewrite E in Hl
                | destruct (Hrm h) as (new & Hl & Hq); rewrite E in Hl
                | destruct (Hnt h) as (new & Hl & Hq); rewrite E in Hl ];
          simpl in Hl; clear E
      end;
    repeat match goal with
      | Hl : log ?st = _ |- context [log ?st] => rewrite Hl; clear Hl
      end;
    rewrite ?app_nil_l, ?elem_of_app; rewrite ?Forall_forall in *;
    intros Hin; intuition eauto.
Qed.

Lemma no_mainnet_update_unless_testnet_succeeded_witness :
  ∃ s, s ∈ testnet_services ∧ "testnet-api" = "testnet-" +:+ s.
Proof.
  apply (no_mainnet_update_unless_testnet_succeeded steps_ok
           backend_times_out scenario "testnet-api" "api"
           "ghcr.io/nearblocks/api:sha1" 0).
  - vm_compute. discriminate.
  - apply (list_elem_of_lookup_2 _ 2). vm_compute. reflexivity.
Defined.
